(** * Labor lines service: model and verified properties

    A shallow embedding of the Go packages [models], [services] and
    [handler] of the labor-lines Lambda, followed by the properties of the
    specification that concern them.

    Conventions.
    - A Go [string] is a [string]; an [int64] epoch second is a [Z] in the
      range of [int64]: a reading of the clock is ([now]), a number read
      from the store is or fails to decode, and the code only copies and
      compares timestamps, it never computes with them.
    - A Go slice [[]string] is an [option (list string)]: [None] is the nil
      slice, [Some []] the empty non-nil one (the validators test [!= nil]).
    - A pointer that may be nil ([*int64], [*LaborLine]) is an [option].
    - A Go function returning [(v, error)] returns a [result].
    - [time.Now().Unix()] and [uuid.New().String()] read the outside world:
      every function that calls them takes the value read as an argument.
    - [log.Printf] only writes to the log and is left out.
    - The libraries the code calls are outside the repository.  The store
      client is an interface ([DynamoDBClient]), as in the code, with a
      model of one table as an instance; [uuid.Parse] and the schema
      validator are parameters of the validator, the JSON decoding of an
      argument is a parameter of the handlers; the instances given for
      them serve the worked example. *)

From stdpp Require Import gmap strings list fin_maps pretty sorting.
From Stdlib Require Import ZArith Ascii.

Set Warnings "-register-all".

Local Open Scope string_scope.
Local Open Scope Z_scope.

(** ** Errors and results *)

(** Go [error] values.  [errorString] is [errors.New] or a [fmt.Errorf]
    without a wrapped cause, [wrapError msg e] is
    [fmt.Errorf("msg: %w", e)], and [externalError kind msg] is an error
    made by a library (the store's SDK, encoding/json, attributevalue,
    gojsonschema). *)
Inductive error : Type :=
| errorString (s : string)
| wrapError (msg : string) (cause : error)
| externalError (kind : string) (msg : string).

(** [err.Error()] *)
Fixpoint Error (e : error) : string :=
  match e with
  | errorString s => s
  | wrapError msg cause => msg ++ ": " ++ Error cause
  | externalError _ msg => msg
  end.

Inductive result (A : Type) : Type :=
| Ok (a : A)
| Err (e : error).
Arguments Ok {A} a.
Arguments Err {A} e.

(** A dynamically typed Go value ([interface{}]): what a decoded JSON
    document holds ([nil], [bool], number, [string], [[]interface{}],
    [map[string]interface{}]) and, besides, the [[]string] the validator
    stores in its data map.  A number keeps its JSON literal. *)
Inductive any : Type :=
| any_nil
| any_bool (b : bool)
| any_number (literal : string)
| any_string (s : string)
| any_strings (l : list string)
| any_slice (l : list any)
| any_map (m : list (string * any)).

(** ** Package models *)

Module LaborLine.
Record t : Type := mk {
  LaborLineID : string;
  ContactID : string;
  AccountID : string;
  TaskID : string;
  PartID : option (list string);
  Notes : option (list string);
  CreatedAt : Z;
  UpdatedAt : Z;
  DeletedAt : option Z;
  PK : string;
  SK : string }.
End LaborLine.

Module CreateLaborLineInput.
Record t : Type := mk {
  ContactID : string;
  AccountID : string;
  TaskID : string;
  PartID : option (list string);
  Notes : option (list string) }.
Definition zero : t := mk "" "" "" None None.
End CreateLaborLineInput.

Module UpdateLaborLineInput.
Record t : Type := mk {
  LaborLineID : string;
  ContactID : string;
  AccountID : string;
  TaskID : string;
  PartID : option (list string);
  Notes : option (list string) }.
Definition zero : t := mk "" "" "" "" None None.
End UpdateLaborLineInput.

Module GetLaborLineInput.
Record t : Type := mk {
  AccountID : string;
  TaskID : string;
  LaborLineID : string }.
Definition zero : t := mk "" "" "".
End GetLaborLineInput.

Module ListLaborLinesInput.
Record t : Type := mk {
  AccountID : string;
  TaskID : string }.
Definition zero : t := mk "" "".
End ListLaborLinesInput.

Module DeleteLaborLineInput.
Record t : Type := mk {
  AccountID : string;
  TaskID : string;
  LaborLineID : string }.
Definition zero : t := mk "" "" "".
End DeleteLaborLineInput.

(** [NewLaborLine]: [now] is [time.Now().Unix()], [laborLineID] is
    [uuid.New().String()]. *)
Definition NewLaborLine (now : Z) (laborLineID : string)
    (input : CreateLaborLineInput.t) : LaborLine.t :=
  {| LaborLine.LaborLineID := laborLineID;
     LaborLine.ContactID := CreateLaborLineInput.ContactID input;
     LaborLine.AccountID := CreateLaborLineInput.AccountID input;
     LaborLine.TaskID := CreateLaborLineInput.TaskID input;
     LaborLine.PartID := CreateLaborLineInput.PartID input;
     LaborLine.Notes := CreateLaborLineInput.Notes input;
     LaborLine.CreatedAt := now;
     LaborLine.UpdatedAt := now;
     LaborLine.DeletedAt := None;
     LaborLine.PK := CreateLaborLineInput.AccountID input;
     LaborLine.SK := CreateLaborLineInput.TaskID input ++ "#" ++ laborLineID |}.

(** [UpdateLaborLineInput.ToLaborLine]: [CreatedAt] is left at its zero
    value, [now] is [time.Now().Unix()]. *)
Definition ToLaborLine (now : Z) (input : UpdateLaborLineInput.t) : LaborLine.t :=
  {| LaborLine.LaborLineID := UpdateLaborLineInput.LaborLineID input;
     LaborLine.ContactID := UpdateLaborLineInput.ContactID input;
     LaborLine.AccountID := UpdateLaborLineInput.AccountID input;
     LaborLine.TaskID := UpdateLaborLineInput.TaskID input;
     LaborLine.PartID := UpdateLaborLineInput.PartID input;
     LaborLine.Notes := UpdateLaborLineInput.Notes input;
     LaborLine.CreatedAt := 0;
     LaborLine.UpdatedAt := now;
     LaborLine.DeletedAt := None;
     LaborLine.PK := UpdateLaborLineInput.AccountID input;
     LaborLine.SK := UpdateLaborLineInput.TaskID input ++ "#"
                       ++ UpdateLaborLineInput.LaborLineID input |}.

Definition IsDeleted (ll : LaborLine.t) : bool :=
  match LaborLine.DeletedAt ll with
  | Some _ => true
  | None => false
  end.

(** [SoftDelete] mutates the record in place; here it returns the new one. *)
Definition SoftDelete (now : Z) (ll : LaborLine.t) : LaborLine.t :=
  {| LaborLine.LaborLineID := LaborLine.LaborLineID ll;
     LaborLine.ContactID := LaborLine.ContactID ll;
     LaborLine.AccountID := LaborLine.AccountID ll;
     LaborLine.TaskID := LaborLine.TaskID ll;
     LaborLine.PartID := LaborLine.PartID ll;
     LaborLine.Notes := LaborLine.Notes ll;
     LaborLine.CreatedAt := LaborLine.CreatedAt ll;
     LaborLine.UpdatedAt := now;
     LaborLine.DeletedAt := Some now;
     LaborLine.PK := LaborLine.PK ll;
     LaborLine.SK := LaborLine.SK ll |}.

(** ** The store's item representation (package attributevalue)

    An item is a map from attribute names to attribute values.  A number
    attribute keeps the integer it denotes instead of its decimal text. *)

Inductive AttributeValue : Type :=
| AttributeValueMemberS (Value : string)
| AttributeValueMemberN (Value : Z)
| AttributeValueMemberL (Value : list AttributeValue)
| AttributeValueMemberBOOL (Value : bool)
| AttributeValueMemberNULL.

Abbreviation Item := (gmap string AttributeValue).

Definition UnmarshalTypeError : error :=
  externalError "UnmarshalTypeError" "unmarshal failed, cannot unmarshal attribute into Go value".

(** Encoding of a [[]string] field tagged [omitempty]: a nil slice leaves
    the attribute out, any other, the empty one too, becomes a list of
    strings. *)
Definition encodeStrings (name : string) (v : option (list string)) (item : Item) : Item :=
  match v with
  | None => item
  | Some l => <[name := AttributeValueMemberL (AttributeValueMemberS <$> l)]> item
  end.

(** Encoding of the [*int64] field tagged [omitempty]. *)
Definition encodeInt64Ptr (name : string) (v : option Z) (item : Item) : Item :=
  match v with
  | None => item
  | Some n => <[name := AttributeValueMemberN n]> item
  end.

(** [attributevalue.MarshalMap] at type [*LaborLine], following the
    [dynamodbav] tags of the struct.  It has no failing case at this type. *)
Definition MarshalMap (ll : LaborLine.t) : result Item :=
  Ok (encodeStrings "partId" (LaborLine.PartID ll)
     (encodeStrings "notes" (LaborLine.Notes ll)
     (encodeInt64Ptr "deletedAt" (LaborLine.DeletedAt ll)
     (<["laborLineId" := AttributeValueMemberS (LaborLine.LaborLineID ll)]>
     (<["contactId" := AttributeValueMemberS (LaborLine.ContactID ll)]>
     (<["accountId" := AttributeValueMemberS (LaborLine.AccountID ll)]>
     (<["taskId" := AttributeValueMemberS (LaborLine.TaskID ll)]>
     (<["createdAt" := AttributeValueMemberN (LaborLine.CreatedAt ll)]>
     (<["updatedAt" := AttributeValueMemberN (LaborLine.UpdatedAt ll)]>
     (<["PK" := AttributeValueMemberS (LaborLine.PK ll)]>
     (<["SK" := AttributeValueMemberS (LaborLine.SK ll)]> ∅))))))))))).

(** The range of an [int64], and the [int64] an integer wraps to. *)
Definition inInt64 (n : Z) : bool :=
  (-9223372036854775808 <=? n) && (n <=? 9223372036854775807).

Definition int64 (n : Z) : Z :=
  (n + 9223372036854775808) mod 18446744073709551616 - 9223372036854775808.

(** Decoders of one attribute into a field that starts at its zero value:
    a missing or NULL attribute leaves the zero value, an attribute of
    another type than the field's is a type error.  A string field also
    takes a number attribute, as the text of the number; an [int64] field
    takes a number of its range, any other number is an error. *)
Definition decodeString (a : option AttributeValue) : result string :=
  match a with
  | None | Some AttributeValueMemberNULL => Ok ""
  | Some (AttributeValueMemberS s) => Ok s
  | Some (AttributeValueMemberN n) => Ok (pretty n)
  | Some _ => Err UnmarshalTypeError
  end.

Definition decodeInt64 (a : option AttributeValue) : result Z :=
  match a with
  | None | Some AttributeValueMemberNULL => Ok 0
  | Some (AttributeValueMemberN n) => if inInt64 n then Ok n else Err UnmarshalTypeError
  | Some _ => Err UnmarshalTypeError
  end.

Definition decodeInt64Ptr (a : option AttributeValue) : result (option Z) :=
  match a with
  | None | Some AttributeValueMemberNULL => Ok None
  | Some (AttributeValueMemberN n) =>
      if inInt64 n then Ok (Some n) else Err UnmarshalTypeError
  | Some _ => Err UnmarshalTypeError
  end.

Fixpoint decodeElements (l : list AttributeValue) : result (list string) :=
  match l with
  | [] => Ok []
  | a :: l' =>
      match decodeString (Some a) with
      | Err e => Err e
      | Ok s =>
          match decodeElements l' with
          | Err e => Err e
          | Ok r => Ok (s :: r)
          end
      end
  end.

Definition decodeStrings (a : option AttributeValue) : result (option (list string)) :=
  match a with
  | None | Some AttributeValueMemberNULL => Ok None
  | Some (AttributeValueMemberL l) =>
      match decodeElements l with
      | Err e => Err e
      | Ok r => Ok (Some r)
      end
  | Some _ => Err UnmarshalTypeError
  end.

(** [attributevalue.UnmarshalMap] into a zero-valued [LaborLine]. *)
Definition UnmarshalMap (item : Item) : result LaborLine.t :=
  match decodeString (item !! "laborLineId"), decodeString (item !! "contactId"),
        decodeString (item !! "accountId"), decodeString (item !! "taskId"),
        decodeStrings (item !! "partId"), decodeStrings (item !! "notes") with
  | Ok laborLineId, Ok contactId, Ok accountId, Ok taskId, Ok partId, Ok notes =>
      match decodeInt64 (item !! "createdAt"), decodeInt64 (item !! "updatedAt"),
            decodeInt64Ptr (item !! "deletedAt"),
            decodeString (item !! "PK"), decodeString (item !! "SK") with
      | Ok createdAt, Ok updatedAt, Ok deletedAt, Ok pk, Ok sk =>
          Ok {| LaborLine.LaborLineID := laborLineId;
                LaborLine.ContactID := contactId;
                LaborLine.AccountID := accountId;
                LaborLine.TaskID := taskId;
                LaborLine.PartID := partId;
                LaborLine.Notes := notes;
                LaborLine.CreatedAt := createdAt;
                LaborLine.UpdatedAt := updatedAt;
                LaborLine.DeletedAt := deletedAt;
                LaborLine.PK := pk;
                LaborLine.SK := sk |}
      | _, _, _, _, _ => Err UnmarshalTypeError
      end
  | _, _, _, _, _, _ => Err UnmarshalTypeError
  end.

(** ** The store client (interface DynamoDBClient)

    The three calls the service makes.  A condition expression is kept as
    its syntax tree; a query's key condition is the partition value and the
    optional sort-key prefix of [PK = :pk AND begins_with(SK, :skPrefix)]. *)

Inductive condition : Type :=
| attribute_exists (path : string)
| attribute_not_exists (path : string)
| cond_AND (a b : condition).

Record PutItemInput : Type := {
  put_TableName : string;
  put_Item : Item;
  put_ConditionExpression : condition }.

Record GetItemInput : Type := {
  get_TableName : string;
  get_Key : Item }.

Record QueryInput : Type := {
  query_TableName : string;
  query_pk : string;
  query_skPrefix : option string }.

(** A client acts on a store state of type [T]; each call returns the new
    state and the call's result. *)
Class DynamoDBClient (T : Type) : Type := {
  PutItem : PutItemInput → T → T * result unit;
  GetItem : GetItemInput → T → T * result (option Item);
  Query : QueryInput → T → T * result (list Item) }.

(** ** Package services: the persistence adapter [dynamoDBService] *)

Section dynamoDBService.
Context {T : Type} {client : DynamoDBClient T}.
Variable tableName : string.

(** Condition of the create write:
    [attribute_not_exists(PK) AND attribute_not_exists(SK)] *)
Definition createCondition : condition :=
  cond_AND (attribute_not_exists "PK") (attribute_not_exists "SK").

(** Condition of the update write: [attribute_exists(PK) AND
    attribute_exists(SK) AND attribute_not_exists(deletedAt)] *)
Definition updateCondition : condition :=
  cond_AND (cond_AND (attribute_exists "PK") (attribute_exists "SK"))
           (attribute_not_exists "deletedAt").

(** Condition of the soft-delete write:
    [attribute_exists(PK) AND attribute_exists(SK)] *)
Definition deleteCondition : condition :=
  cond_AND (attribute_exists "PK") (attribute_exists "SK").

Definition CreateLaborLine (laborLine : LaborLine.t) (st : T) : T * result unit :=
  match MarshalMap laborLine with
  | Err err => (st, Err (wrapError "marshaling labor line" err))
  | Ok item =>
      let input := {| put_TableName := tableName;
                      put_Item := item;
                      put_ConditionExpression := createCondition |} in
      match PutItem input st with
      | (st', Err err) => (st', Err (wrapError "creating labor line in DynamoDB" err))
      | (st', Ok _) => (st', Ok ())
      end
  end.

Definition GetLaborLine (input : GetLaborLineInput.t) (st : T)
    : T * result (option LaborLine.t) :=
  let pk := GetLaborLineInput.AccountID input in
  let sk := GetLaborLineInput.TaskID input ++ "#" ++ GetLaborLineInput.LaborLineID input in
  let getInput := {| get_TableName := tableName;
                     get_Key := <["PK" := AttributeValueMemberS pk]>
                                (<["SK" := AttributeValueMemberS sk]> ∅) |} in
  match GetItem getInput st with
  | (st', Err err) => (st', Err (wrapError "getting labor line from DynamoDB" err))
  | (st', Ok None) => (st', Ok None)
  | (st', Ok (Some item)) =>
      match UnmarshalMap item with
      | Err err => (st', Err (wrapError "unmarshaling labor line" err))
      | Ok laborLine =>
          if IsDeleted laborLine then (st', Ok None) else (st', Ok (Some laborLine))
      end
  end.

(** The assignment [laborLine.CreatedAt = existing.CreatedAt]. *)
Definition withCreatedAt (createdAt : Z) (ll : LaborLine.t) : LaborLine.t :=
  {| LaborLine.LaborLineID := LaborLine.LaborLineID ll;
     LaborLine.ContactID := LaborLine.ContactID ll;
     LaborLine.AccountID := LaborLine.AccountID ll;
     LaborLine.TaskID := LaborLine.TaskID ll;
     LaborLine.PartID := LaborLine.PartID ll;
     LaborLine.Notes := LaborLine.Notes ll;
     LaborLine.CreatedAt := createdAt;
     LaborLine.UpdatedAt := LaborLine.UpdatedAt ll;
     LaborLine.DeletedAt := LaborLine.DeletedAt ll;
     LaborLine.PK := LaborLine.PK ll;
     LaborLine.SK := LaborLine.SK ll |}.

Definition UpdateLaborLine (laborLine : LaborLine.t) (st : T) : T * result unit :=
  match GetLaborLine {| GetLaborLineInput.AccountID := LaborLine.AccountID laborLine;
                        GetLaborLineInput.TaskID := LaborLine.TaskID laborLine;
                        GetLaborLineInput.LaborLineID := LaborLine.LaborLineID laborLine |} st with
  | (st1, Err err) => (st1, Err (wrapError "checking existing labor line" err))
  | (st1, Ok None) => (st1, Err (errorString "labor line not found"))
  | (st1, Ok (Some existing)) =>
      let laborLine := withCreatedAt (LaborLine.CreatedAt existing) laborLine in
      match MarshalMap laborLine with
      | Err err => (st1, Err (wrapError "marshaling labor line" err))
      | Ok item =>
          let input := {| put_TableName := tableName;
                          put_Item := item;
                          put_ConditionExpression := updateCondition |} in
          match PutItem input st1 with
          | (st2, Err err) => (st2, Err (wrapError "updating labor line in DynamoDB" err))
          | (st2, Ok _) => (st2, Ok ())
          end
      end
  end.

(** [now] is the [time.Now().Unix()] read by [SoftDelete]. *)
Definition DeleteLaborLine (now : Z) (input : DeleteLaborLineInput.t) (st : T)
    : T * result unit :=
  match GetLaborLine {| GetLaborLineInput.AccountID := DeleteLaborLineInput.AccountID input;
                        GetLaborLineInput.TaskID := DeleteLaborLineInput.TaskID input;
                        GetLaborLineInput.LaborLineID := DeleteLaborLineInput.LaborLineID input |} st with
  | (st1, Err err) => (st1, Err (wrapError "checking existing labor line" err))
  | (st1, Ok None) => (st1, Err (errorString "labor line not found"))
  | (st1, Ok (Some existing)) =>
      let existing := SoftDelete now existing in
      match MarshalMap existing with
      | Err err => (st1, Err (wrapError "marshaling labor line for deletion" err))
      | Ok item =>
          let updateInput := {| put_TableName := tableName;
                                put_Item := item;
                                put_ConditionExpression := deleteCondition |} in
          match PutItem updateInput st1 with
          | (st2, Err err) => (st2, Err (wrapError "soft deleting labor line in DynamoDB" err))
          | (st2, Ok _) => (st2, Ok ())
          end
      end
  end.

(** The loop of [ListLaborLines] over the items of the query result;
    [laborLines] is the slice built so far. *)
Fixpoint collectLaborLines (items : list Item) (laborLines : list LaborLine.t)
    : result (list LaborLine.t) :=
  match items with
  | [] => Ok laborLines
  | item :: rest =>
      match UnmarshalMap item with
      | Err err => Err (wrapError "unmarshaling labor line" err)
      | Ok laborLine =>
          if negb (IsDeleted laborLine)
          then collectLaborLines rest (laborLines ++ [laborLine])
          else collectLaborLines rest laborLines
      end
  end.

Definition ListLaborLines (input : ListLaborLinesInput.t) (st : T)
    : T * result (list LaborLine.t) :=
  let queryInput :=
    if decide (ListLaborLinesInput.TaskID input ≠ "")
    then {| query_TableName := tableName;
            query_pk := ListLaborLinesInput.AccountID input;
            query_skPrefix := Some (ListLaborLinesInput.TaskID input ++ "#") |}
    else {| query_TableName := tableName;
            query_pk := ListLaborLinesInput.AccountID input;
            query_skPrefix := None |} in
  match Query queryInput st with
  | (st', Err err) => (st', Err (wrapError "querying labor lines from DynamoDB" err))
  | (st', Ok items) =>
      match collectLaborLines items [] with
      | Err err => (st', Err err)
      | Ok laborLines => (st', Ok laborLines)
      end
  end.

End dynamoDBService.

(** ** Package services: the validator [validationService]

    Two libraries decide the outcome and are taken as given:
    [uuid_Parse s] tells whether [uuid.Parse(s)] returns no error, and
    [schema_Validate data] is [s.schema.Validate(NewGoLoader(data))]: an
    error, or the descriptions ([desc.String()]) of [result.Errors()], the
    result being valid when there is none. *)

Section validationService.
Variable uuid_Parse : string → bool.
Variable schema_Validate : gmap string any → result (list string).

Definition uuidFields : list string := ["laborLineId"; "accountId"; "taskId"].

(** The loop over [uuidFields]. *)
Fixpoint validateUUIDFields (fields : list string) (data : gmap string any) : option error :=
  match fields with
  | [] => None
  | field :: rest =>
      match data !! field with
      | Some (any_string strValue) =>
          if uuid_Parse strValue then validateUUIDFields rest data
          else Some (errorString ("invalid UUID format for field " ++ field ++ ": " ++ strValue))
      | _ => validateUUIDFields rest data
      end
  end.

(** The loop over the elements of [partId], from index [i] on. *)
Fixpoint validatePartArray (i : nat) (partArray : list string) : option error :=
  match partArray with
  | [] => None
  | part :: rest =>
      if uuid_Parse part then validatePartArray (S i) rest
      else Some (errorString ("invalid UUID format for partId[" ++ pretty i ++ "]: " ++ part))
  end.

Definition validateUUIDs (data : gmap string any) : option error :=
  match validateUUIDFields uuidFields data with
  | Some err => Some err
  | None =>
      match data !! "partId" with
      | Some (any_strings partArray) => validatePartArray 0 partArray
      | _ => None
      end
  end.

(** [fmt]'s [%v] of a [[]string]. *)
Definition fmt_strings (l : list string) : string :=
  "[" ++ String.concat " " l ++ "]".

Definition validateData (data : gmap string any) : option error :=
  match validateUUIDs data with
  | Some err => Some err
  | None =>
      match schema_Validate data with
      | Err err => Some (wrapError "schema validation error" err)
      | Ok errors =>
          match errors with
          | [] => None
          | _ => Some (errorString ("validation failed: " ++ fmt_strings errors))
          end
      end
  end.

(** The optional entries [partId] and [notes] of the validation data. *)
Definition withOptional (name : string) (v : option (list string))
    (data : gmap string any) : gmap string any :=
  match v with
  | Some l => <[name := any_strings l]> data
  | None => data
  end.

(** [tempID] is the [uuid.New().String()] made for the validation only. *)
Definition ValidateCreateInput (tempID : string) (input : CreateLaborLineInput.t)
    : option error :=
  let validationData : gmap string any :=
    <["laborLineId" := any_string tempID]>
    (<["accountId" := any_string (CreateLaborLineInput.AccountID input)]>
    (<["taskId" := any_string (CreateLaborLineInput.TaskID input)]> ∅)) in
  let validationData := withOptional "partId" (CreateLaborLineInput.PartID input) validationData in
  let validationData := withOptional "notes" (CreateLaborLineInput.Notes input) validationData in
  validateData validationData.

Definition ValidateUpdateInput (input : UpdateLaborLineInput.t) : option error :=
  let validationData : gmap string any :=
    <["laborLineId" := any_string (UpdateLaborLineInput.LaborLineID input)]>
    (<["accountId" := any_string (UpdateLaborLineInput.AccountID input)]>
    (<["taskId" := any_string (UpdateLaborLineInput.TaskID input)]> ∅)) in
  let validationData := withOptional "partId" (UpdateLaborLineInput.PartID input) validationData in
  let validationData := withOptional "notes" (UpdateLaborLineInput.Notes input) validationData in
  validateData validationData.

End validationService.

(** ** Package models: the resolver event and the response envelope *)

(** Of the event only the fields the code reads are kept, and the
    top-level [FieldName] and [TypeName], which it does not read. *)
Record AppSyncInfo : Type := {
  info_FieldName : string;
  info_ParentTypeName : string }.

Record AppSyncEvent : Type := {
  TypeName : string;
  FieldName : string;
  Arguments : gmap string any;
  Info : AppSyncInfo }.

Record AppSyncError : Type := {
  Message : string;
  Type_ : string }.

(** What the handlers put in [Data]: a [*LaborLine] (possibly nil), a
    [[]*LaborLine], or the map of the delete confirmation. *)
Inductive data : Type :=
| data_LaborLine (p : option LaborLine.t)
| data_LaborLines (l : list LaborLine.t)
| data_map (m : gmap string any).

Record AppSyncResponse : Type := {
  Data : option data;
  Error_ : option AppSyncError }.

(** Decoding of an argument into a target of type [A]:
    [json.Unmarshal(data, target)] after [data, err := json.Marshal(arg)],
    with the error of either step. *)
Class JSONTarget (A : Type) : Type :=
  json_roundtrip : any → A → result A.

(** [GetArgumentAs]: the target is returned as the call leaves it. *)
Definition GetArgumentAs {A : Type} `{JSONTarget A} (e : AppSyncEvent) (key : string)
    (target : A) : result A :=
  match Arguments e !! key with
  | Some arg => json_roundtrip arg target
  | None => Ok target
  end.

Definition GetInputArgument {A : Type} `{JSONTarget A} (e : AppSyncEvent) (target : A)
    : result A :=
  GetArgumentAs e "input" target.

(** ** Package handler *)

(** What one invocation reads from the outside world: the seconds of the
    clock (read at most once per operation) and the two identifiers
    [uuid.New().String()] a create draws, first the validator's temporary
    one, then the record's. *)
Record Draws : Type := {
  seconds : Z;
  tempID : string;
  newID : string }.

(** [time.Now().Unix()], an [int64]. *)
Definition now (d : Draws) : Z := int64 (seconds d).

Section LaborLineHandler.
Context {T : Type} {client : DynamoDBClient T}.
Variable tableName : string.
Variable uuid_Parse : string → bool.
Variable schema_Validate : gmap string any → result (list string).
Context {decodeCreate : JSONTarget CreateLaborLineInput.t}
        {decodeUpdate : JSONTarget UpdateLaborLineInput.t}
        {decodeDelete : JSONTarget DeleteLaborLineInput.t}
        {decodeGet : JSONTarget GetLaborLineInput.t}
        {decodeList : JSONTarget ListLaborLinesInput.t}.

(** A handler returns the store state it leaves, the response and the Go
    [error] next to it. *)
Definition outcome : Type := T * (AppSyncResponse * option error).

Definition errorResponse (message type : string) : AppSyncResponse :=
  {| Data := None; Error_ := Some {| Message := message; Type_ := type |} |}.

Definition dataResponse (d : data) : AppSyncResponse :=
  {| Data := Some d; Error_ := None |}.

Definition handleCreate (d : Draws) (event : AppSyncEvent) (st : T) : outcome :=
  match GetInputArgument event CreateLaborLineInput.zero with
  | Err err => (st, (errorResponse ("invalid input: " ++ Error err) "ValidationError", None))
  | Ok input =>
      match ValidateCreateInput uuid_Parse schema_Validate (tempID d) input with
      | Some err =>
          (st, (errorResponse ("validation failed: " ++ Error err) "ValidationError", None))
      | None =>
          let laborLine := NewLaborLine (now d) (newID d) input in
          match CreateLaborLine tableName laborLine st with
          | (st', Err err) =>
              (st', (errorResponse "failed to create labor line" "InternalError", None))
          | (st', Ok _) => (st', (dataResponse (data_LaborLine (Some laborLine)), None))
          end
      end
  end.

Definition handleUpdate (d : Draws) (event : AppSyncEvent) (st : T) : outcome :=
  match GetInputArgument event UpdateLaborLineInput.zero with
  | Err err => (st, (errorResponse ("invalid input: " ++ Error err) "ValidationError", None))
  | Ok input =>
      match ValidateUpdateInput uuid_Parse schema_Validate input with
      | Some err =>
          (st, (errorResponse ("validation failed: " ++ Error err) "ValidationError", None))
      | None =>
          let laborLine := ToLaborLine (now d) input in
          match UpdateLaborLine tableName laborLine st with
          | (st1, Err err) =>
              (st1, (errorResponse "failed to update labor line" "InternalError", None))
          | (st1, Ok _) =>
              match GetLaborLine tableName
                      {| GetLaborLineInput.AccountID := UpdateLaborLineInput.AccountID input;
                         GetLaborLineInput.TaskID := UpdateLaborLineInput.TaskID input;
                         GetLaborLineInput.LaborLineID := UpdateLaborLineInput.LaborLineID input |}
                      st1 with
              | (st2, Err err) =>
                  (st2, (errorResponse "failed to retrieve updated labor line" "InternalError", None))
              | (st2, Ok updatedLaborLine) =>
                  (st2, (dataResponse (data_LaborLine updatedLaborLine), None))
              end
          end
      end
  end.

Definition handleDelete (d : Draws) (event : AppSyncEvent) (st : T) : outcome :=
  match GetInputArgument event DeleteLaborLineInput.zero with
  | Err err => (st, (errorResponse ("invalid input: " ++ Error err) "ValidationError", None))
  | Ok input =>
      match DeleteLaborLine tableName (now d) input st with
      | (st', Err err) =>
          (st', (errorResponse "failed to delete labor line" "InternalError", None))
      | (st', Ok _) =>
          (st', (dataResponse (data_map (<["success" := any_bool true]>
                   (<["message" := any_string "labor line deleted successfully"]> ∅))), None))
      end
  end.

Definition handleGet (event : AppSyncEvent) (st : T) : outcome :=
  match GetInputArgument event GetLaborLineInput.zero with
  | Err err => (st, (errorResponse ("invalid input: " ++ Error err) "ValidationError", None))
  | Ok input =>
      match GetLaborLine tableName input st with
      | (st', Err err) =>
          (st', (errorResponse "failed to get labor line" "InternalError", None))
      | (st', Ok None) => (st', (errorResponse "labor line not found" "NotFound", None))
      | (st', Ok (Some laborLine)) =>
          (st', (dataResponse (data_LaborLine (Some laborLine)), None))
      end
  end.

Definition handleList (event : AppSyncEvent) (st : T) : outcome :=
  match GetInputArgument event ListLaborLinesInput.zero with
  | Err err => (st, (errorResponse ("invalid input: " ++ Error err) "ValidationError", None))
  | Ok input =>
      match ListLaborLines tableName input st with
      | (st', Err err) =>
          (st', (errorResponse "failed to list labor lines" "InternalError", None))
      | (st', Ok laborLines) => (st', (dataResponse (data_LaborLines laborLines), None))
      end
  end.

(** The five operation names of the dispatcher's [switch]. *)
Definition operations : list string :=
  ["createLaborLine"; "updateLaborLine"; "deleteLaborLine"; "getLaborLine"; "listLaborLines"].

Definition HandleAppSyncEvent (d : Draws) (event : AppSyncEvent) (st : T) : outcome :=
  let fieldName := info_FieldName (Info event) in
  if decide (fieldName = "createLaborLine") then handleCreate d event st
  else if decide (fieldName = "updateLaborLine") then handleUpdate d event st
  else if decide (fieldName = "deleteLaborLine") then handleDelete d event st
  else if decide (fieldName = "getLaborLine") then handleGet event st
  else if decide (fieldName = "listLaborLines") then handleList event st
  else (st, (errorResponse ("unsupported operation: " ++ fieldName) "UnsupportedOperation", None)).

End LaborLineHandler.

(** ** The table: a model of the store behind the client

    One table with partition key [PK] and sort key [SK], both strings.  The
    state is the map from primary keys to items.  A write is atomic and
    replaces the whole item when its condition holds of the item stored at
    the same key; a key attribute may not be the empty string.  A read
    sees the latest write.  Paging of query results is not modelled. *)

Abbreviation Table := (gmap (string * string) Item).

Definition ValidationException : error :=
  externalError "ValidationException" "One or more parameter values were invalid".

Definition ConditionalCheckFailedException : error :=
  externalError "ConditionalCheckFailedException" "The conditional request failed".

(** The primary key an item or a key map carries. *)
Definition keyOf (item : Item) : option (string * string) :=
  match item !! "PK", item !! "SK" with
  | Some (AttributeValueMemberS pk), Some (AttributeValueMemberS sk) =>
      if decide (pk ≠ "" ∧ sk ≠ "") then Some (pk, sk) else None
  | _, _ => None
  end.

(** A condition expression evaluated on the item stored at the key of the
    write, if there is one. *)
Fixpoint holds (c : condition) (stored : option Item) : bool :=
  match c with
  | attribute_exists path =>
      match stored with
      | Some item => bool_decide (is_Some (item !! path))
      | None => false
      end
  | attribute_not_exists path =>
      match stored with
      | Some item => bool_decide (item !! path = None)
      | None => true
      end
  | cond_AND a b => holds a stored && holds b stored
  end.

Definition table_PutItem (input : PutItemInput) (t : Table) : Table * result unit :=
  match keyOf (put_Item input) with
  | None => (t, Err ValidationException)
  | Some k =>
      if holds (put_ConditionExpression input) (t !! k)
      then (<[k := put_Item input]> t, Ok ())
      else (t, Err ConditionalCheckFailedException)
  end.

Definition table_GetItem (input : GetItemInput) (t : Table) : Table * result (option Item) :=
  match keyOf (get_Key input) with
  | None => (t, Err ValidationException)
  | Some k => (t, Ok (t !! k))
  end.

(** The key condition of a query. *)
Definition matchesQuery (input : QueryInput) (entry : string * string * Item) : bool :=
  bool_decide (entry.1.1 = query_pk input) &&
  match query_skPrefix input with
  | Some skPrefix => String.prefix skPrefix entry.1.2
  | None => true
  end.

(** Items of one partition come in the order of their sort keys. *)
Definition table_Query (input : QueryInput) (t : Table) : Table * result (list Item) :=
  if decide (query_pk input = "") then (t, Err ValidationException)
  else
    (t, Ok ((λ entry, entry.2) <$>
            merge_sort (λ a b : string * string * Item, String.leb a.1.2 b.1.2)
                       (filter (λ entry, matchesQuery input entry) (map_to_list t)))).

#[export] Instance tableClient : DynamoDBClient Table := {|
  PutItem := table_PutItem;
  GetItem := table_GetItem;
  Query := table_Query |}.

(** Every stored item carries the key it is stored at. *)
Definition table_wf (t : Table) : Prop :=
  ∀ k item, t !! k = Some item → keyOf item = Some k.

(** ** Decoders for the five input shapes (package encoding/json)

    An instance of [JSONTarget] per input struct.  [json.Marshal] writes
    the members of the argument in the byte order of their keys, and
    [json.Unmarshal] reads them in that order: a member whose key is the
    [json] tag of a field, letter case apart, is assigned to the field, a
    later one over an earlier one, and any other member is skipped.  A
    null member leaves a string as it is and makes a slice nil, a member of
    another type than the field's is an error, and a null argument leaves
    the target untouched. *)

Definition JSONUnmarshalTypeError : error :=
  externalError "UnmarshalTypeError" "json: cannot unmarshal value into Go value".

Definition toLowerASCII (c : ascii) : ascii :=
  let n := N_of_ascii c in
  if ((65 <=? n) && (n <=? 90))%N then ascii_of_N (n + 32) else c.

(** The folding under which the decoder compares a key with a tag: the
    letters A to Z with a to z and, besides, the long s (U+017F) with s and
    the Kelvin sign (U+212A) with k. *)
Fixpoint foldName (s : string) : string :=
  match s with
  | EmptyString => EmptyString
  | String c rest =>
      match N_of_ascii c, rest with
      | 197%N, String c1 rest1 =>
          if bool_decide (N_of_ascii c1 = 191%N) then String "s" (foldName rest1)
          else String c (foldName rest)
      | 226%N, String c1 (String c2 rest2) =>
          if bool_decide (N_of_ascii c1 = 132%N ∧ N_of_ascii c2 = 170%N)
          then String "k" (foldName rest2)
          else String c (foldName rest)
      | _, _ => String (toLowerASCII c) (foldName rest)
      end
  end.

(** The values assigned in turn to the field tagged [name]. *)
Definition members (name : string) (m : list (string * any)) : list any :=
  (λ e, e.2) <$> filter (λ e : string * any, foldName e.1 = foldName name)
                   (merge_sort (λ a b : string * any, String.leb a.1 b.1) m).

Fixpoint jsonAssign {A : Type} (assign : any → A → result A) (vs : list any) (old : A)
    : result A :=
  match vs with
  | [] => Ok old
  | v :: rest =>
      match assign v old with
      | Ok a => jsonAssign assign rest a
      | Err e => Err e
      end
  end.

Definition jsonString (v : any) (old : string) : result string :=
  match v with
  | any_nil => Ok old
  | any_string s => Ok s
  | _ => Err JSONUnmarshalTypeError
  end.

(** The elements of an array are decoded over those the slice has. *)
Fixpoint jsonElements (l : list any) (old : list string) : result (list string) :=
  match l with
  | [] => Ok []
  | v :: rest =>
      match jsonString v (hd "" old), jsonElements rest (tl old) with
      | Ok s, Ok r => Ok (s :: r)
      | _, _ => Err JSONUnmarshalTypeError
      end
  end.

Definition jsonStrings (v : any) (old : option (list string))
    : result (option (list string)) :=
  match v with
  | any_nil => Ok None
  | any_strings l => Ok (Some l)
  | any_slice l =>
      match jsonElements l (default [] old) with
      | Ok r => Ok (Some r)
      | Err e => Err e
      end
  | _ => Err JSONUnmarshalTypeError
  end.

Definition jsonStringField (name : string) (m : list (string * any)) (old : string)
    : result string :=
  jsonAssign jsonString (members name m) old.

Definition jsonStringsField (name : string) (m : list (string * any))
    (old : option (list string)) : result (option (list string)) :=
  jsonAssign jsonStrings (members name m) old.

(** Decoding of an argument into a struct, given the decoding of its
    members. *)
Definition jsonStruct {A : Type} (fields : list (string * any) → A → result A)
    (arg : any) (target : A) : result A :=
  match arg with
  | any_nil => Ok target
  | any_map m => fields m target
  | _ => Err JSONUnmarshalTypeError
  end.

#[export] Instance decodeCreateLaborLineInput : JSONTarget CreateLaborLineInput.t :=
  jsonStruct (λ m old,
    match jsonStringField "contactId" m (CreateLaborLineInput.ContactID old),
          jsonStringField "accountId" m (CreateLaborLineInput.AccountID old),
          jsonStringField "taskId" m (CreateLaborLineInput.TaskID old),
          jsonStringsField "partId" m (CreateLaborLineInput.PartID old),
          jsonStringsField "notes" m (CreateLaborLineInput.Notes old) with
    | Ok contactId, Ok accountId, Ok taskId, Ok partId, Ok notes =>
        Ok (CreateLaborLineInput.mk contactId accountId taskId partId notes)
    | _, _, _, _, _ => Err JSONUnmarshalTypeError
    end).

#[export] Instance decodeUpdateLaborLineInput : JSONTarget UpdateLaborLineInput.t :=
  jsonStruct (λ m old,
    match jsonStringField "laborLineId" m (UpdateLaborLineInput.LaborLineID old),
          jsonStringField "contactId" m (UpdateLaborLineInput.ContactID old),
          jsonStringField "accountId" m (UpdateLaborLineInput.AccountID old),
          jsonStringField "taskId" m (UpdateLaborLineInput.TaskID old),
          jsonStringsField "partId" m (UpdateLaborLineInput.PartID old),
          jsonStringsField "notes" m (UpdateLaborLineInput.Notes old) with
    | Ok laborLineId, Ok contactId, Ok accountId, Ok taskId, Ok partId, Ok notes =>
        Ok (UpdateLaborLineInput.mk laborLineId contactId accountId taskId partId notes)
    | _, _, _, _, _, _ => Err JSONUnmarshalTypeError
    end).

#[export] Instance decodeGetLaborLineInput : JSONTarget GetLaborLineInput.t :=
  jsonStruct (λ m old,
    match jsonStringField "accountId" m (GetLaborLineInput.AccountID old),
          jsonStringField "taskId" m (GetLaborLineInput.TaskID old),
          jsonStringField "laborLineId" m (GetLaborLineInput.LaborLineID old) with
    | Ok accountId, Ok taskId, Ok laborLineId =>
        Ok (GetLaborLineInput.mk accountId taskId laborLineId)
    | _, _, _ => Err JSONUnmarshalTypeError
    end).

#[export] Instance decodeListLaborLinesInput : JSONTarget ListLaborLinesInput.t :=
  jsonStruct (λ m old,
    match jsonStringField "accountId" m (ListLaborLinesInput.AccountID old),
          jsonStringField "taskId" m (ListLaborLinesInput.TaskID old) with
    | Ok accountId, Ok taskId => Ok (ListLaborLinesInput.mk accountId taskId)
    | _, _ => Err JSONUnmarshalTypeError
    end).

#[export] Instance decodeDeleteLaborLineInput : JSONTarget DeleteLaborLineInput.t :=
  jsonStruct (λ m old,
    match jsonStringField "accountId" m (DeleteLaborLineInput.AccountID old),
          jsonStringField "taskId" m (DeleteLaborLineInput.TaskID old),
          jsonStringField "laborLineId" m (DeleteLaborLineInput.LaborLineID old) with
    | Ok accountId, Ok taskId, Ok laborLineId =>
        Ok (DeleteLaborLineInput.mk accountId taskId laborLineId)
    | _, _, _ => Err JSONUnmarshalTypeError
    end).

(** ** Instances of the two validation libraries, for the examples

    [canonicalUUID s] tells whether [uuid.Parse] reads [s] as an
    identifier.  It reads the canonical form, 36 bytes with eight, four,
    four, four and twelve hexadecimal digits of either case separated by
    hyphens, which is the form [uuid.New().String()] prints in lower case;
    the same after the nine bytes [urn:uuid:] in any letter case; the same
    between one byte before and one byte after, which it does not look at;
    and 32 hexadecimal digits.  [schemaUUID] is the [uuid] format of the
    schema validator: the canonical form in lower case only.
    [embeddedSchema] checks the validation data against the schema text
    embedded in [NewValidationServiceWithEmbeddedSchema]; the library
    reports the violations of a document in no fixed order, the instance
    reports them in the order of the schema text. *)

Definition isHexDigit (c : ascii) : bool :=
  let n := N_of_ascii c in
  ((48 <=? n) && (n <=? 57) || (97 <=? n) && (n <=? 102) || (65 <=? n) && (n <=? 70))%N.

Definition isLowerHexDigit (c : ascii) : bool :=
  let n := N_of_ascii c in
  ((48 <=? n) && (n <=? 57) || (97 <=? n) && (n <=? 102))%N.

Fixpoint canonicalFrom (hex : ascii → bool) (i : nat) (s : string) : bool :=
  match s with
  | EmptyString => bool_decide (i = 36%nat)
  | String c rest =>
      (if bool_decide (i ∈ [8; 13; 18; 23]%nat) then bool_decide (c = "-"%char)
       else hex c)
      && canonicalFrom hex (S i) rest
  end.

Fixpoint allHexDigits (s : string) : bool :=
  match s with
  | EmptyString => true
  | String c rest => isHexDigit c && allHexDigits rest
  end.

Fixpoint lowerASCII (s : string) : string :=
  match s with
  | EmptyString => EmptyString
  | String c rest => String (toLowerASCII c) (lowerASCII rest)
  end.

Definition canonicalUUID (s : string) : bool :=
  let n := String.length s in
  if bool_decide (n = 36%nat) then canonicalFrom isHexDigit 0 s
  else if bool_decide (n = 45%nat) then
    bool_decide (lowerASCII (String.substring 0 9 s) = "urn:uuid:")
    && canonicalFrom isHexDigit 0 (String.substring 9 36 s)
  else if bool_decide (n = 38%nat) then canonicalFrom isHexDigit 0 (String.substring 1 36 s)
  else if bool_decide (n = 32%nat) then allHexDigits s
  else false.

Definition schemaUUID (s : string) : bool := canonicalFrom isLowerHexDigit 0 s.

(** Number of characters of a UTF-8 string: the bytes that do not continue
    a character. *)
Fixpoint runeCount (s : string) : nat :=
  match s with
  | EmptyString => 0
  | String c rest =>
      if bool_decide (N.land (N_of_ascii c) 192 = 128%N) then runeCount rest
      else S (runeCount rest)
  end.

(** The JSON type of a value, as error descriptions name it. *)
Definition jsonType (v : any) : string :=
  match v with
  | any_nil => "null"
  | any_bool _ => "boolean"
  | any_number _ => "number"
  | any_string _ => "string"
  | any_strings _ | any_slice _ => "array"
  | any_map _ => "object"
  end.

Definition schemaIdentifier (name : string) (data : gmap string any) : list string :=
  match data !! name with
  | None => ["(root): " ++ name ++ " is required"]
  | Some (any_string s) =>
      if schemaUUID s then [] else [name ++ ": Does not match format 'uuid'"]
  | Some v => [name ++ ": Invalid type. Expected: string, given: " ++ jsonType v]
  end.

Fixpoint schemaPartItems (i : nat) (l : list string) : list string :=
  match l with
  | [] => []
  | part :: rest =>
      (if schemaUUID part then []
       else ["partId." ++ pretty i ++ ": Does not match format 'uuid'"])
      ++ schemaPartItems (S i) rest
  end.

Fixpoint schemaNoteItems (i : nat) (l : list string) : list string :=
  match l with
  | [] => []
  | note :: rest =>
      (if bool_decide (runeCount note < 1)%nat
       then ["notes." ++ pretty i ++ ": String length must be greater than or equal to 1"]
       else if bool_decide (1000 < runeCount note)%nat
       then ["notes." ++ pretty i ++ ": String length must be less than or equal to 1000"]
       else [])
      ++ schemaNoteItems (S i) rest
  end.

(** [uniqueItems]: an element equal to an earlier one is reported with the
    index [i] of its latest earlier occurrence and its own index [j];
    [seen] has the elements before [j], the latest first. *)
Fixpoint schemaUnique (name : string) (seen : list (string * nat)) (j : nat)
    (l : list string) : list string :=
  match l with
  | [] => []
  | v :: rest =>
      (match list_find (λ e, e.1 = v) seen with
       | Some (_, (_, i)) =>
           [name ++ ": array items[" ++ pretty i ++ "," ++ pretty j ++ "] must be unique"]
       | None => []
       end)
      ++ schemaUnique name ((v, j) :: seen) (S j) rest
  end.

Definition schemaArray (name : string) (items : list string → list string)
    (unique : bool) (data : gmap string any) : list string :=
  match data !! name with
  | None => []
  | Some (any_strings l) =>
      items l ++ (if unique then schemaUnique name [] 0 l else [])
  | Some v => [name ++ ": Invalid type. Expected: array, given: " ++ jsonType v]
  end.

Definition schemaProperties : list string :=
  ["laborLineId"; "accountId"; "taskId"; "partId"; "notes"].

Definition embeddedSchema (data : gmap string any) : result (list string) :=
  Ok (schemaIdentifier "laborLineId" data ++ schemaIdentifier "accountId" data
      ++ schemaIdentifier "taskId" data
      ++ schemaArray "partId" (schemaPartItems 0) true data
      ++ schemaArray "notes" (schemaNoteItems 0) false data
      ++ ((λ k, "(root): Additional property " ++ k ++ " is not allowed")%string <$>
          filter (λ k, k ∉ schemaProperties) (map_to_list data).*1))%list.

(** ** The order of the identifier-format checks, as the specification
    words it

    The identifiers of a payload in the order in which they are checked:
    the three identifier fields that hold a string, then the elements of
    [partId].  Each comes with the way an error message names it. *)

Definition fieldSlot (data : gmap string any) (field : string) : option (string * string) :=
  match data !! field with
  | Some (any_string strValue) => Some ("field " ++ field, strValue)
  | _ => None
  end.

Definition partSlot (i : nat) (part : string) : string * string :=
  ("partId[" ++ pretty i ++ "]", part).

Definition identifierSlots (data : gmap string any) : list (string * string) :=
  (omap (fieldSlot data) ["laborLineId"; "accountId"; "taskId"] ++
   match data !! "partId" with
   | Some (any_strings partArray) => imap partSlot partArray
   | _ => []
   end)%list.

(** The first identifier that is not well formed, if there is one. *)
Definition firstFormatViolation (uuid_Parse : string → bool) (data : gmap string any)
    : option (string * string) :=
  find (λ slot, negb (uuid_Parse slot.2)) (identifierSlots data).

(** ** Vocabulary of the properties *)

(** The records a response carries. *)
Definition recordsOf (resp : AppSyncResponse) : list LaborLine.t :=
  match Data resp with
  | Some (data_LaborLine (Some ll)) => [ll]
  | Some (data_LaborLines l) => l
  | _ => []
  end.

(** The values a caller supplies with a create. *)
Definition suppliedValues (input : CreateLaborLineInput.t) : list string :=
  ([CreateLaborLineInput.ContactID input; CreateLaborLineInput.AccountID input;
    CreateLaborLineInput.TaskID input]
   ++ default [] (CreateLaborLineInput.PartID input)
   ++ default [] (CreateLaborLineInput.Notes input))%list.

(** The timestamps of a record are [int64] values. *)
Definition int64Times (ll : LaborLine.t) : Prop :=
  inInt64 (LaborLine.CreatedAt ll) = true
  ∧ inInt64 (LaborLine.UpdatedAt ll) = true
  ∧ from_option (λ n, inInt64 n = true) True (LaborLine.DeletedAt ll).

(** The derived-key invariant of a record. *)
Definition keyConsistent (ll : LaborLine.t) : Prop :=
  LaborLine.PK ll = LaborLine.AccountID ll
  ∧ LaborLine.SK ll = LaborLine.TaskID ll ++ "#" ++ LaborLine.LaborLineID ll.

(** Every stored item decodes to a record that satisfies it. *)
Definition table_consistent (t : Table) : Prop :=
  ∀ k item, t !! k = Some item → ∃ ll, UnmarshalMap item = Ok ll ∧ keyConsistent ll.

(** The invariant of the table: items sit at the key they carry and
    decode to key-consistent records. *)
Definition table_inv (t : Table) : Prop := table_wf t ∧ table_consistent t.

(** ** A worked example

    One account, one task, and the events of a create, an update, a delete
    and a lookup of the same labor line, handled on the table with the
    decoders and validators above. *)

Definition exampleAccount : string := "11111111-1111-1111-1111-111111111111".
Definition exampleTask : string := "22222222-2222-2222-2222-222222222222".
Definition exampleID : string := "33333333-3333-3333-3333-333333333333".
Definition exampleTempID : string := "44444444-4444-4444-4444-444444444444".
Definition exampleContact : string := "not-a-uuid".

Definition exampleEvent (operation : string) (arguments : gmap string any) : AppSyncEvent :=
  {| TypeName := ""; FieldName := ""; Arguments := arguments;
     Info := {| info_FieldName := operation; info_ParentTypeName := "Mutation" |} |}.

Definition exampleDraws (clock : Z) : Draws :=
  {| seconds := clock; tempID := exampleTempID; newID := exampleID |}.

Definition exampleCreateInput : CreateLaborLineInput.t :=
  CreateLaborLineInput.mk exampleContact exampleAccount exampleTask None (Some ["n1"]).

Definition createEvent : AppSyncEvent :=
  exampleEvent "createLaborLine"
    {[ "input" := any_map [("contactId", any_string exampleContact);
                           ("accountId", any_string exampleAccount);
                           ("taskId", any_string exampleTask);
                           ("notes", any_slice [any_string "n1"])] ]}.

Definition exampleUpdateInput : UpdateLaborLineInput.t :=
  UpdateLaborLineInput.mk exampleID exampleContact exampleAccount exampleTask None (Some ["n2"]).

Definition updateEvent : AppSyncEvent :=
  exampleEvent "updateLaborLine"
    {[ "input" := any_map [("laborLineId", any_string exampleID);
                           ("contactId", any_string exampleContact);
                           ("accountId", any_string exampleAccount);
                           ("taskId", any_string exampleTask);
                           ("notes", any_slice [any_string "n2"])] ]}.

Definition exampleKeyInput : list (string * any) :=
  [("accountId", any_string exampleAccount); ("taskId", any_string exampleTask);
   ("laborLineId", any_string exampleID)].

Definition deleteEvent : AppSyncEvent :=
  exampleEvent "deleteLaborLine" {[ "input" := any_map exampleKeyInput ]}.

Definition getEvent : AppSyncEvent :=
  exampleEvent "getLaborLine" {[ "input" := any_map exampleKeyInput ]}.

Definition exampleDeleteInput : DeleteLaborLineInput.t :=
  DeleteLaborLineInput.mk exampleAccount exampleTask exampleID.

Definition exampleGetInput : GetLaborLineInput.t :=
  GetLaborLineInput.mk exampleAccount exampleTask exampleID.

(** An event without arguments and one with an unknown operation name. *)
Definition bareGetEvent : AppSyncEvent := exampleEvent "getLaborLine" ∅.
Definition renameEvent : AppSyncEvent := exampleEvent "renameLaborLine" ∅.

Definition exampleHandle : Draws → AppSyncEvent → Table → Table * (AppSyncResponse * option error) :=
  HandleAppSyncEvent "labor-lines" canonicalUUID embeddedSchema.

Definition exampleKey : string * string := (exampleAccount, exampleTask ++ "#" ++ exampleID).

(** The record the create builds at clock reading 1700000100, the item it
    is stored as, and the table that holds just this item. *)
Definition exampleRecord : LaborLine.t := NewLaborLine 1700000100 exampleID exampleCreateInput.

Definition itemOf (ll : LaborLine.t) : Item :=
  match MarshalMap ll with
  | Ok item => item
  | Err _ => ∅
  end.

Definition exampleTable : Table := {[ exampleKey := itemOf exampleRecord ]}.

(** The same table after the record was soft-deleted at 1700000200. *)
Definition exampleTombstone : LaborLine.t := SoftDelete 1700000200 exampleRecord.
Definition exampleDeletedTable : Table := {[ exampleKey := itemOf exampleTombstone ]}.

(** Validation data with an ill-formed second part identifier and an empty
    note, and validation data with well-formed identifiers, a repeated
    part identifier and an empty note. *)
Definition exampleBadPart : gmap string any :=
  <["laborLineId" := any_string exampleID]>
  (<["accountId" := any_string exampleAccount]>
  (<["taskId" := any_string exampleTask]>
  (<["partId" := any_strings [exampleAccount; "not-a-uuid"]]>
  (<["notes" := any_strings [""]]> ∅)))).

Definition exampleBadShape : gmap string any :=
  <["laborLineId" := any_string exampleID]>
  (<["accountId" := any_string exampleAccount]>
  (<["taskId" := any_string exampleTask]>
  (<["partId" := any_strings [exampleAccount; exampleAccount]]>
  (<["notes" := any_strings [""]]> ∅)))).

(** A create whose caller supplies, as contact, the identifier the
    generator is about to draw; the two identifiers drawn have the shape
    of those [uuid.New] makes (version 4, variant 10). *)
Definition collidingID : string := "33333333-3333-4333-8333-333333333333".

Definition collidingDraws : Draws :=
  {| seconds := 1700000100;
     tempID := "44444444-4444-4444-8444-444444444444";
     newID := collidingID |}.

Definition collidingInput : CreateLaborLineInput.t :=
  CreateLaborLineInput.mk collidingID exampleAccount exampleTask None None.

Definition collidingEvent : AppSyncEvent :=
  exampleEvent "createLaborLine"
    {[ "input" := any_map [("contactId", any_string collidingID);
                           ("accountId", any_string exampleAccount);
                           ("taskId", any_string exampleTask)] ]}.

(** The record of an update of the example at clock reading 1700000050. *)
Definition exampleUpdated : LaborLine.t :=
  withCreatedAt (LaborLine.CreatedAt exampleRecord)
    (ToLaborLine 1700000050 exampleUpdateInput).

(** ** Package main: the Lambda entry point

    [tableNameEnv] is the value of [os.Getenv("DYNAMODB_TABLE_NAME")] and
    [loadDefaultConfig] the error of [config.LoadDefaultConfig], if any;
    the client made from the loaded configuration is the client of the
    section, and the validator is the one with the embedded schema. *)

Section LambdaHandler.
Context {T : Type} {client : DynamoDBClient T}.
Variable uuid_Parse : string → bool.
Variable schema_Validate : gmap string any → result (list string).
Context {decodeCreate : JSONTarget CreateLaborLineInput.t}
        {decodeUpdate : JSONTarget UpdateLaborLineInput.t}
        {decodeDelete : JSONTarget DeleteLaborLineInput.t}
        {decodeGet : JSONTarget GetLaborLineInput.t}
        {decodeList : JSONTarget ListLaborLinesInput.t}.

Definition LambdaHandler (tableNameEnv : string) (loadDefaultConfig : option error)
    (d : Draws) (event : AppSyncEvent) (st : T) : T * (AppSyncResponse * option error) :=
  let tableName := tableNameEnv in
  if decide (tableName = "")
  then (st, (errorResponse "DYNAMODB_TABLE_NAME environment variable not set"
               "ConfigurationError", None))
  else
    match loadDefaultConfig with
    | Some err =>
        (st, (errorResponse ("failed to load AWS config: " ++ Error err)
                "ConfigurationError", None))
    | None => HandleAppSyncEvent tableName uuid_Parse schema_Validate d event st
    end.

End LambdaHandler.

(** The error types the handlers write into an envelope. *)
Definition errorTypes : list string :=
  ["ValidationError"; "InternalError"; "NotFound"; "UnsupportedOperation";
   "ConfigurationError"].

(** An envelope carries either data or an error of one of these types. *)
Definition wellFormedEnvelope (resp : AppSyncResponse) : Prop :=
  match Data resp, Error_ resp with
  | Some _, None => True
  | None, Some e => Type_ e ∈ errorTypes
  | _, _ => False
  end.

(** The error types of a request that is turned down before the store is
    asked anything. *)
Definition rejectionTypes : list string :=
  ["ValidationError"; "UnsupportedOperation"; "ConfigurationError"].

(** A create event whose accountId is not an identifier, and an event that
    names its operation at the top level only. *)
Definition badCreateEvent : AppSyncEvent :=
  exampleEvent "createLaborLine"
    {[ "input" := any_map [("accountId", any_string "invalid-uuid");
                           ("taskId", any_string exampleTask)] ]}.

Definition misplacedEvent : AppSyncEvent :=
  {| TypeName := "Mutation"; FieldName := "createLaborLine";
     Arguments := Arguments createEvent;
     Info := {| info_FieldName := ""; info_ParentTypeName := "" |} |}.

Definition unnamedEvent : AppSyncEvent :=
  {| TypeName := ""; FieldName := "";
     Arguments := Arguments createEvent;
     Info := {| info_FieldName := ""; info_ParentTypeName := "Mutation" |} |}.

(** The table after an operation: untouched, or with one item written,
    at a key that held an item unless the operation may add one. *)
Inductive written (t : Table) (mayAdd : Prop) : Table → Prop :=
| written_nothing : written t mayAdd t
| written_one k item : (mayAdd ∨ is_Some (t !! k)) → written t mayAdd (<[k := item]> t).

(** A list of the whole example account, a create without arguments, and
    the example table with one more item in the same partition whose
    [createdAt] is a string. *)
Definition exampleListInput : ListLaborLinesInput.t :=
  ListLaborLinesInput.mk exampleAccount "".

Definition listEvent : AppSyncEvent :=
  exampleEvent "listLaborLines"
    {[ "input" := any_map [("accountId", any_string exampleAccount)] ]}.

Definition bareCreateEvent : AppSyncEvent := exampleEvent "createLaborLine" ∅.

Definition exampleCorruptItem : Item :=
  <["PK" := AttributeValueMemberS exampleAccount]>
  (<["SK" := AttributeValueMemberS "imported"]>
  (<["createdAt" := AttributeValueMemberS "yesterday"]> ∅)).

Definition exampleCorruptTable : Table :=
  <[(exampleAccount, "imported") := exampleCorruptItem]> exampleTable.

(** * Properties *)

(** ** The dispatcher *)

Section dispatcher_properties.
Context {T : Type} {client : DynamoDBClient T}.
Variable tableName : string.
Variable uuid_Parse : string → bool.
Variable schema_Validate : gmap string any → result (list string).
Context {decodeCreate : JSONTarget CreateLaborLineInput.t}
        {decodeUpdate : JSONTarget UpdateLaborLineInput.t}
        {decodeDelete : JSONTarget DeleteLaborLineInput.t}
        {decodeGet : JSONTarget GetLaborLineInput.t}
        {decodeList : JSONTarget ListLaborLinesInput.t}.

(** C8. An event whose operation name is none of the five recognised ones
    is answered with a response envelope that has no data and an error of
    type [UnsupportedOperation]; the Go error returned next to the
    response is nil and the store is not touched. *)
Theorem unsupported_operation_response (d : Draws) (event : AppSyncEvent) (st : T) :
  info_FieldName (Info event) ∉ operations →
  HandleAppSyncEvent tableName uuid_Parse schema_Validate d event st =
    (st, ({| Data := None;
             Error_ := Some {| Message := "unsupported operation: "
                                            ++ info_FieldName (Info event);
                               Type_ := "UnsupportedOperation" |} |}, None)).
Proof.
  intros Hop. unfold HandleAppSyncEvent, operations in *.
  repeat case_decide; try reflexivity;
    exfalso; apply Hop; match goal with H : _ = _ |- _ => rewrite H end;
    set_solver.
Qed.

(** [GetArgumentAs] leaves the target as it is when the key is missing. *)
Lemma GetArgumentAs_missing {A : Type} `{JSONTarget A} (e : AppSyncEvent) (key : string)
    (target : A) :
  Arguments e !! key = None → GetArgumentAs e key target = Ok target.
Proof. intros Hk. unfold GetArgumentAs. by rewrite Hk. Qed.

(** C10. When the arguments of an event have no [input] key, decoding
    reports no error and leaves the zero-valued input struct, whatever the
    target type; so [handleGet] goes on to look up the record whose three
    identifiers are empty, and no operation answers with the decode-level
    error (a message starting with "invalid input: "). *)
Theorem missing_input_decodes_to_zero (d : Draws) (event : AppSyncEvent) (st : T) :
  Arguments event !! "input" = None →
  (∀ (A : Type) (dec : JSONTarget A) (target : A), GetInputArgument event target = Ok target)
  ∧ handleGet tableName event st =
      match GetLaborLine tableName (GetLaborLineInput.mk "" "" "") st with
      | (st', Err _) => (st', (errorResponse "failed to get labor line" "InternalError", None))
      | (st', Ok None) => (st', (errorResponse "labor line not found" "NotFound", None))
      | (st', Ok (Some laborLine)) =>
          (st', (dataResponse (data_LaborLine (Some laborLine)), None))
      end
  ∧ (∀ st' resp err e,
       HandleAppSyncEvent tableName uuid_Parse schema_Validate d event st = (st', (resp, err)) →
       Error_ resp = Some e →
       String.prefix "invalid input: " (Message e) = false).
Proof.
  intros Hk.
  assert (Hdec : ∀ (A : Type) (dec : JSONTarget A) (target : A),
             GetInputArgument event target = Ok target).
  { intros A dec target. by apply GetArgumentAs_missing. }
  split; [exact Hdec|]. split.
  - unfold handleGet. by rewrite Hdec.
  - intros st' resp err e. unfold HandleAppSyncEvent.
    repeat case_decide.
    + unfold handleCreate. rewrite Hdec.
      destruct (ValidateCreateInput _ _ _ _); [|destruct (CreateLaborLine _ _ _) as [? []]];
        intros [= <- <- <-] [= <-]; reflexivity.
    + unfold handleUpdate. rewrite Hdec.
      destruct (ValidateUpdateInput _ _ _);
        [|destruct (UpdateLaborLine _ _ _) as [? []];
          [destruct (GetLaborLine _ _ _) as [? []]|]];
        intros [= <- <- <-]; intros [= <-]; reflexivity.
    + unfold handleDelete. rewrite Hdec.
      destruct (DeleteLaborLine _ _ _ _) as [? []];
        intros [= <- <- <-]; intros [= <-]; reflexivity.
    + unfold handleGet. rewrite Hdec.
      destruct (GetLaborLine _ _ _) as [? [[]|]];
        intros [= <- <- <-]; intros [= <-]; reflexivity.
    + unfold handleList. rewrite Hdec.
      destruct (ListLaborLines _ _ _) as [? []];
        intros [= <- <- <-]; intros [= <-]; reflexivity.
    + intros [= <- <- <-]; intros [= <-]; reflexivity.
Qed.

End dispatcher_properties.

(** ** The validator *)

Section validator_properties.
Variable uuid_Parse : string → bool.
Variable schema_Validate : gmap string any → result (list string).

Lemma validateUUIDFields_find (fields : list string) (data : gmap string any) :
  validateUUIDFields uuid_Parse fields data =
    match find (λ slot : string * string, negb (uuid_Parse slot.2))
               (omap (fieldSlot data) fields) with
    | Some (name, value) =>
        Some (errorString ("invalid UUID format for " ++ name ++ ": " ++ value))
    | None => None
    end.
Proof.
  induction fields as [|field rest IH]; [reflexivity|].
  cbn [validateUUIDFields omap list_omap]. unfold fieldSlot at 1.
  destruct (data !! field) as [[]|]; try exact IH.
  cbn [find snd]. destruct (uuid_Parse s); [exact IH|reflexivity].
Qed.

Lemma append_assoc (a b c : string) : ((a ++ b) ++ c = a ++ (b ++ c))%string.
Proof.
  induction a as [|x a IH]; [reflexivity|].
  change (String x ((a ++ b) ++ c) = String x (a ++ (b ++ c))). by rewrite IH.
Qed.

Lemma partSlot_message (i : nat) (part : string) :
  "invalid UUID format for " ++ (partSlot i part).1 ++ ": " ++ (partSlot i part).2
  = "invalid UUID format for partId[" ++ pretty i ++ "]: " ++ part.
Proof. unfold partSlot. cbn [fst snd]. by rewrite !append_assoc. Qed.

Lemma validatePartArray_find (i : nat) (partArray : list string) :
  validatePartArray uuid_Parse i partArray =
    match find (λ slot : string * string, negb (uuid_Parse slot.2))
               (imap (λ j, partSlot (i + j)) partArray) with
    | Some (name, value) =>
        Some (errorString ("invalid UUID format for " ++ name ++ ": " ++ value))
    | None => None
    end.
Proof.
  revert i. induction partArray as [|part rest IH]; intros i; [reflexivity|].
  cbn [validatePartArray imap find]. rewrite Nat.add_0_r.
  pose proof (partSlot_message i part) as Hmsg.
  destruct (partSlot i part) as [name value] eqn:Hslot.
  assert (value = part) as -> by (by injection Hslot).
  cbn [fst snd] in *. destruct (uuid_Parse part); cbn [negb]; [|by rewrite Hmsg].
  rewrite IH. erewrite imap_ext; [reflexivity|].
  intros j x _. cbn. by rewrite Nat.add_succ_r.
Qed.

Lemma find_app_slots {A : Type} (p : A → bool) (l1 l2 : list A) :
  find p (l1 ++ l2) = match find p l1 with Some x => Some x | None => find p l2 end.
Proof.
  induction l1 as [|x l1 IH]; [reflexivity|]. cbn. destruct (p x); [reflexivity|exact IH].
Qed.

Lemma validateUUIDs_first (data : gmap string any) :
  validateUUIDs uuid_Parse data =
    match firstFormatViolation uuid_Parse data with
    | Some (name, value) =>
        Some (errorString ("invalid UUID format for " ++ name ++ ": " ++ value))
    | None => None
    end.
Proof.
  unfold validateUUIDs, firstFormatViolation, identifierSlots, uuidFields.
  rewrite validateUUIDFields_find, find_app_slots.
  destruct (find _ (omap _ _)) as [[name value]|]; [reflexivity|].
  destruct (data !! "partId") as [[]|]; try reflexivity.
  apply validatePartArray_find.
Qed.

(** The identifiers of an update payload, in the order of the checks: the
    three identifier fields, then the elements of [partId]; a create
    payload has the validator's temporary identifier in the first place. *)
Lemma ValidateUpdateInput_order (input : UpdateLaborLineInput.t) :
  ∃ data : gmap string any,
    (∀ schema, ValidateUpdateInput uuid_Parse schema input = validateData uuid_Parse schema data)
    ∧ identifierSlots data =
        ([("field laborLineId", UpdateLaborLineInput.LaborLineID input);
          ("field accountId", UpdateLaborLineInput.AccountID input);
          ("field taskId", UpdateLaborLineInput.TaskID input)]
         ++ imap partSlot (default [] (UpdateLaborLineInput.PartID input)))%list.
Proof.
  eexists. split; [reflexivity|]. unfold identifierSlots, fieldSlot, withOptional.
  destruct (UpdateLaborLineInput.PartID input), (UpdateLaborLineInput.Notes input);
    cbn [omap list_omap]; by simplify_map_eq.
Qed.

Lemma ValidateCreateInput_order (tempID : string) (input : CreateLaborLineInput.t) :
  ∃ data : gmap string any,
    (∀ schema,
       ValidateCreateInput uuid_Parse schema tempID input = validateData uuid_Parse schema data)
    ∧ identifierSlots data =
        ([("field laborLineId", tempID);
          ("field accountId", CreateLaborLineInput.AccountID input);
          ("field taskId", CreateLaborLineInput.TaskID input)]
         ++ imap partSlot (default [] (CreateLaborLineInput.PartID input)))%list.
Proof.
  eexists. split; [reflexivity|]. unfold identifierSlots, fieldSlot, withOptional.
  destruct (CreateLaborLineInput.PartID input), (CreateLaborLineInput.Notes input);
    cbn [omap list_omap]; by simplify_map_eq.
Qed.

(** C3. Validation of a payload looks at the identifiers first, in the
    order laborLineId, accountId, taskId, then the elements of partId.
    When one of them is ill formed, the error is the one of the first such
    identifier and names its field or its index in partId, whatever the
    schema would say of the payload (the schema validator is not
    consulted: any other validator in its place gives the same error).
    When all are well formed, the schema violations are reported together,
    in one error that lists every one of them; and the payload is accepted
    when there is none. *)
Theorem format_checks_precede_schema (data : gmap string any) :
  match firstFormatViolation uuid_Parse data with
  | Some (name, value) =>
      ∀ schema : gmap string any → result (list string),
        validateData uuid_Parse schema data =
          Some (errorString ("invalid UUID format for " ++ name ++ ": " ++ value))
  | None =>
      ∀ errors : list string,
        schema_Validate data = Ok errors →
        validateData uuid_Parse schema_Validate data =
          match errors with
          | [] => None
          | _ => Some (errorString ("validation failed: [" ++ String.concat " " errors ++ "]"))
          end
  end.
Proof.
  pose proof (validateUUIDs_first data) as Hfirst.
  destruct (firstFormatViolation uuid_Parse data) as [[name value]|].
  - intros schema. unfold validateData. by rewrite Hfirst.
  - intros errors Hschema. unfold validateData. rewrite Hfirst, Hschema.
    by destruct errors.
Qed.

End validator_properties.

(** ** The item encoding *)

Lemma decodeElements_strings (l : list string) :
  decodeElements (AttributeValueMemberS <$> l) = Ok l.
Proof. induction l as [|x l IH]; [reflexivity|]. cbn. by rewrite IH. Qed.

Lemma decodeStrings_encoded (l : list string) :
  decodeStrings (Some (AttributeValueMemberL (AttributeValueMemberS <$> l))) = Ok (Some l).
Proof. unfold decodeStrings. by rewrite decodeElements_strings. Qed.

(** The attributes of a marshalled record. *)
Lemma MarshalMap_attributes (ll : LaborLine.t) (item : Item) :
  MarshalMap ll = Ok item →
  item !! "laborLineId" = Some (AttributeValueMemberS (LaborLine.LaborLineID ll))
  ∧ item !! "contactId" = Some (AttributeValueMemberS (LaborLine.ContactID ll))
  ∧ item !! "accountId" = Some (AttributeValueMemberS (LaborLine.AccountID ll))
  ∧ item !! "taskId" = Some (AttributeValueMemberS (LaborLine.TaskID ll))
  ∧ decodeStrings (item !! "partId") = Ok (LaborLine.PartID ll)
  ∧ decodeStrings (item !! "notes") = Ok (LaborLine.Notes ll)
  ∧ item !! "createdAt" = Some (AttributeValueMemberN (LaborLine.CreatedAt ll))
  ∧ item !! "updatedAt" = Some (AttributeValueMemberN (LaborLine.UpdatedAt ll))
  ∧ item !! "deletedAt" = AttributeValueMemberN <$> LaborLine.DeletedAt ll
  ∧ item !! "PK" = Some (AttributeValueMemberS (LaborLine.PK ll))
  ∧ item !! "SK" = Some (AttributeValueMemberS (LaborLine.SK ll)).
Proof.
  intros [= <-]. unfold encodeStrings, encodeInt64Ptr.
  destruct (LaborLine.PartID ll) as [ps|], (LaborLine.Notes ll) as [ns|],
    (LaborLine.DeletedAt ll);
    repeat split; simplify_map_eq; try reflexivity.
  all: by rewrite decodeElements_strings.
Qed.

Lemma int64_inInt64 (n : Z) : inInt64 (int64 n) = true.
Proof.
  unfold inInt64, int64.
  pose proof (Z.mod_pos_bound (n + 9223372036854775808) 18446744073709551616 eq_refl).
  apply andb_true_intro. split; apply Z.leb_le; lia.
Qed.

Lemma now_inInt64 (d : Draws) : inInt64 (now d) = true.
Proof. apply int64_inInt64. Qed.

(** A list field is left out of the item only when it is nil: an empty
    list is written as an empty list attribute, and read back as one. *)
Lemma MarshalMap_partId (ll : LaborLine.t) (item : Item) :
  MarshalMap ll = Ok item →
  item !! "partId" = (λ l, AttributeValueMemberL (AttributeValueMemberS <$> l))
                       <$> LaborLine.PartID ll.
Proof.
  intros [= <-]. unfold encodeStrings, encodeInt64Ptr.
  destruct (LaborLine.PartID ll), (LaborLine.Notes ll), (LaborLine.DeletedAt ll);
    by simplify_map_eq.
Qed.

Lemma MarshalMap_notes (ll : LaborLine.t) (item : Item) :
  MarshalMap ll = Ok item →
  item !! "notes" = (λ l, AttributeValueMemberL (AttributeValueMemberS <$> l))
                      <$> LaborLine.Notes ll.
Proof.
  intros [= <-]. unfold encodeStrings, encodeInt64Ptr.
  destruct (LaborLine.PartID ll), (LaborLine.Notes ll), (LaborLine.DeletedAt ll);
    by simplify_map_eq.
Qed.

(** Round trip: a marshalled record is unmarshalled as it was. *)
Lemma UnmarshalMap_MarshalMap (ll : LaborLine.t) (item : Item) :
  int64Times ll → MarshalMap ll = Ok item → UnmarshalMap item = Ok ll.
Proof.
  intros (Hc & Hu & Hd) Hm. destruct (MarshalMap_attributes ll item Hm)
    as (H1 & H2 & H3 & H4 & H5 & H6 & H7 & H8 & H9 & H10 & H11).
  unfold UnmarshalMap. rewrite H1, H2, H3, H4, H5, H6, H7, H8, H9, H10, H11.
  destruct ll as [? ? ? ? ? ? ? ? deletedAt ? ?]. cbn in *. rewrite Hc, Hu.
  destruct deletedAt; cbn in *; [by rewrite Hd|done].
Qed.

(** A record read from an item has [int64] timestamps. *)
Lemma UnmarshalMap_int64Times (item : Item) (ll : LaborLine.t) :
  UnmarshalMap item = Ok ll → int64Times ll.
Proof.
  unfold UnmarshalMap, decodeInt64, decodeInt64Ptr.
  destruct (decodeString (item !! "laborLineId")); [|discriminate].
  destruct (decodeString (item !! "contactId")); [|discriminate].
  destruct (decodeString (item !! "accountId")); [|discriminate].
  destruct (decodeString (item !! "taskId")); [|discriminate].
  destruct (decodeStrings (item !! "partId")); [|discriminate].
  destruct (decodeStrings (item !! "notes")); [|discriminate].
  destruct (decodeString (item !! "PK")), (decodeString (item !! "SK")),
    (item !! "createdAt") as [[? |c| | |]|], (item !! "updatedAt") as [[? |u| | |]|],
    (item !! "deletedAt") as [[? |x| | |]|];
    try destruct (inInt64 c) eqn:?; try destruct (inInt64 u) eqn:?;
    try destruct (inInt64 x) eqn:?; try discriminate;
    intros [= <-]; by repeat split.
Qed.

Lemma int64Times_NewLaborLine (n : Z) (laborLineID : string)
    (input : CreateLaborLineInput.t) :
  inInt64 n = true → int64Times (NewLaborLine n laborLineID input).
Proof. by repeat split. Qed.

Lemma int64Times_ToLaborLine (n : Z) (input : UpdateLaborLineInput.t) :
  inInt64 n = true → int64Times (ToLaborLine n input).
Proof. by repeat split. Qed.

Lemma int64Times_withCreatedAt (existing ll : LaborLine.t) :
  int64Times existing → int64Times ll →
  int64Times (withCreatedAt (LaborLine.CreatedAt existing) ll).
Proof. intros (? & ? & ?) (? & ? & ?). by repeat split. Qed.

Lemma int64Times_update (n : Z) (existing : LaborLine.t) (input : UpdateLaborLineInput.t) :
  inInt64 n = true → int64Times existing →
  int64Times (withCreatedAt (LaborLine.CreatedAt existing) (ToLaborLine n input)).
Proof. intros. by apply int64Times_withCreatedAt, int64Times_ToLaborLine. Qed.

Lemma int64Times_SoftDelete (n : Z) (ll : LaborLine.t) :
  inInt64 n = true → int64Times ll → int64Times (SoftDelete n ll).
Proof. intros ? (? & ? & ?). by repeat split. Qed.

(** What a successful unmarshalling tells about the key attributes and the
    tombstone attribute. *)
Lemma UnmarshalMap_keys (item : Item) (ll : LaborLine.t) :
  UnmarshalMap item = Ok ll →
  decodeString (item !! "PK") = Ok (LaborLine.PK ll)
  ∧ decodeString (item !! "SK") = Ok (LaborLine.SK ll)
  ∧ decodeInt64Ptr (item !! "deletedAt") = Ok (LaborLine.DeletedAt ll).
Proof.
  unfold UnmarshalMap.
  destruct (decodeString (item !! "laborLineId")); [|discriminate].
  destruct (decodeString (item !! "contactId")); [|discriminate].
  destruct (decodeString (item !! "accountId")); [|discriminate].
  destruct (decodeString (item !! "taskId")); [|discriminate].
  destruct (decodeStrings (item !! "partId")); [|discriminate].
  destruct (decodeStrings (item !! "notes")); [|discriminate].
  destruct (decodeInt64 (item !! "createdAt")); [|discriminate].
  destruct (decodeInt64 (item !! "updatedAt")); [|discriminate].
  destruct (decodeInt64Ptr (item !! "deletedAt")); [|discriminate].
  destruct (decodeString (item !! "PK")); [|discriminate].
  destruct (decodeString (item !! "SK")); [|discriminate].
  by intros [= <-].
Qed.

Lemma MarshalMap_itemOf (ll : LaborLine.t) : MarshalMap ll = Ok (itemOf ll).
Proof. reflexivity. Qed.

Lemma UnmarshalMap_itemOf (ll : LaborLine.t) :
  int64Times ll → UnmarshalMap (itemOf ll) = Ok ll.
Proof. intros. by apply UnmarshalMap_MarshalMap. Qed.

Lemma keyOf_Some (item : Item) (pk sk : string) :
  keyOf item = Some (pk, sk) ↔
  item !! "PK" = Some (AttributeValueMemberS pk)
  ∧ item !! "SK" = Some (AttributeValueMemberS sk) ∧ pk ≠ "" ∧ sk ≠ "".
Proof.
  unfold keyOf. split.
  - destruct (item !! "PK") as [[]|]; try discriminate.
    destruct (item !! "SK") as [[]|]; try discriminate.
    case_decide; [|discriminate]. intros [= <- <-]. tauto.
  - intros (-> & -> & Hpk & Hsk). rewrite decide_True; tauto.
Qed.

Lemma UnmarshalMap_keyOf (item : Item) (ll : LaborLine.t) (k : string * string) :
  UnmarshalMap item = Ok ll → keyOf item = Some k → k = (LaborLine.PK ll, LaborLine.SK ll).
Proof.
  intros Hu Hk. destruct k as [pk sk]. apply keyOf_Some in Hk as (Hpk & Hsk & _).
  apply UnmarshalMap_keys in Hu as (Hp & Hs & _). rewrite Hpk in Hp. rewrite Hsk in Hs.
  cbn in Hp, Hs. congruence.
Qed.

Lemma sortKey_nonempty (taskID laborLineID : string) : taskID ++ "#" ++ laborLineID ≠ "".
Proof. by destruct taskID. Qed.

(** ** The adapter on the table *)

Section table_properties.
Variable tableName : string.

Lemma table_wf_empty : table_wf ∅.
Proof. intros k item Hk. by rewrite lookup_empty in Hk. Qed.

Lemma table_PutItem_wf (input : PutItemInput) (t t' : Table) (r : result unit) :
  table_wf t → table_PutItem input t = (t', r) → table_wf t'.
Proof.
  intros Hwf. unfold table_PutItem.
  destruct (keyOf (put_Item input)) as [k|] eqn:Hk; [|by intros [= <- _]].
  destruct (holds _ _); intros [= <- _]; [|done].
  intros k' item. destruct (decide (k = k')) as [<-|Hne].
  - rewrite lookup_insert_eq. by intros [= <-].
  - rewrite lookup_insert_ne by done. apply Hwf.
Qed.

(** A write of a marshalled record goes to the key the record carries. *)
Lemma table_PutItem_marshalled (ll : LaborLine.t) (item : Item) (c : condition) (t : Table) :
  MarshalMap ll = Ok item → LaborLine.PK ll ≠ "" → LaborLine.SK ll ≠ "" →
  table_PutItem {| put_TableName := tableName; put_Item := item;
                   put_ConditionExpression := c |} t =
    if holds c (t !! (LaborLine.PK ll, LaborLine.SK ll))
    then (<[(LaborLine.PK ll, LaborLine.SK ll) := item]> t, Ok ())
    else (t, Err ConditionalCheckFailedException).
Proof.
  intros Hm Hpk Hsk. unfold table_PutItem. cbn [put_Item put_ConditionExpression].
  destruct (MarshalMap_attributes ll item Hm) as (_ & _ & _ & _ & _ & _ & _ & _ & _ & H10 & H11).
  assert (keyOf item = Some (LaborLine.PK ll, LaborLine.SK ll)) as -> by (by apply keyOf_Some).
  reflexivity.
Qed.

(** [GetLaborLine] on the table: a point lookup at the derived key that
    hides tombstones and leaves the table as it is. *)
Lemma table_GetLaborLine (input : GetLaborLineInput.t) (t : Table) :
  GetLaborLine tableName input t =
    (t, if decide (GetLaborLineInput.AccountID input = "")
        then Err (wrapError "getting labor line from DynamoDB" ValidationException)
        else match t !! (GetLaborLineInput.AccountID input,
                         GetLaborLineInput.TaskID input ++ "#"
                           ++ GetLaborLineInput.LaborLineID input) with
             | None => Ok None
             | Some item =>
                 match UnmarshalMap item with
                 | Err err => Err (wrapError "unmarshaling labor line" err)
                 | Ok laborLine => if IsDeleted laborLine then Ok None else Ok (Some laborLine)
                 end
             end).
Proof.
  unfold GetLaborLine. cbn [GetItem tableClient]. unfold table_GetItem. cbn [get_Key].
  unfold keyOf. rewrite lookup_insert_eq, lookup_insert_ne by done. rewrite lookup_insert_eq.
  destruct (decide (GetLaborLineInput.AccountID input = "")) as [Hacc|Hacc].
  - rewrite decide_False by tauto. reflexivity.
  - rewrite decide_True by (split; [done|apply sortKey_nonempty]).
    destruct (t !! _) as [item|]; [|reflexivity].
    destruct (UnmarshalMap item) as [ll|]; [|reflexivity]. by destruct (IsDeleted ll).
Qed.

Lemma table_GetLaborLine_state (input : GetLaborLineInput.t) (t : Table) :
  (GetLaborLine tableName input t).1 = t.
Proof. by rewrite table_GetLaborLine. Qed.

(** A tombstoned item is not found. *)
Lemma table_GetLaborLine_tombstoned (input : GetLaborLineInput.t) (t : Table) (item : Item)
    (ll : LaborLine.t) :
  table_wf t →
  t !! (GetLaborLineInput.AccountID input,
        GetLaborLineInput.TaskID input ++ "#" ++ GetLaborLineInput.LaborLineID input)
    = Some item →
  UnmarshalMap item = Ok ll → IsDeleted ll = true →
  GetLaborLine tableName input t = (t, Ok None).
Proof.
  intros Hwf Hitem Hu Hdel. rewrite table_GetLaborLine.
  pose proof (Hwf _ _ Hitem) as Hk. apply keyOf_Some in Hk as (_ & _ & Hacc & _).
  rewrite decide_False by done. by rewrite Hitem, Hu, Hdel.
Qed.

End table_properties.

(** ** Tombstones *)

Section tombstone_properties.
Context {T : Type} {client : DynamoDBClient T}.
Variable tableName : string.
Context {decodeGet : JSONTarget GetLaborLineInput.t}
        {decodeList : JSONTarget ListLaborLinesInput.t}.

Lemma IsDeleted_false (ll : LaborLine.t) :
  IsDeleted ll = false ↔ LaborLine.DeletedAt ll = None.
Proof. unfold IsDeleted. by destruct (LaborLine.DeletedAt ll). Qed.

Lemma GetLaborLine_not_deleted (input : GetLaborLineInput.t) (st st' : T) (ll : LaborLine.t) :
  GetLaborLine tableName input st = (st', Ok (Some ll)) → LaborLine.DeletedAt ll = None.
Proof.
  unfold GetLaborLine. destruct (GetItem _ st) as [st1 [[item|]|]]; try discriminate.
  destruct (UnmarshalMap item) as [laborLine|]; [|discriminate].
  destruct (IsDeleted laborLine) eqn:Hdel; [discriminate|].
  intros [= _ <-]. by apply IsDeleted_false.
Qed.

(** The loop of [ListLaborLines] keeps, in order, the decoded items that
    are not tombstoned. *)
Lemma collectLaborLines_filter (items : list Item) (decoded acc : list LaborLine.t) :
  Forall2 (λ item ll, UnmarshalMap item = Ok ll) items decoded →
  collectLaborLines items acc
    = Ok (acc ++ filter (λ ll, LaborLine.DeletedAt ll = None) decoded)%list.
Proof.
  intros Hdec. revert acc.
  induction Hdec as [|item ll items decoded Hu _ IH]; intros acc.
  - cbn. by rewrite app_nil_r.
  - cbn [collectLaborLines]. rewrite Hu. rewrite filter_cons.
    destruct (IsDeleted ll) eqn:Hdel; cbn [negb].
    + rewrite decide_False; [apply IH|].
      intros Hnone. apply IsDeleted_false in Hnone. congruence.
    + rewrite decide_True by (by apply IsDeleted_false).
      rewrite IH. by rewrite <- app_assoc.
Qed.

Lemma collectLaborLines_not_deleted (items : list Item) (acc lls : list LaborLine.t) :
  collectLaborLines items acc = Ok lls →
  Forall (λ ll, LaborLine.DeletedAt ll = None) acc →
  Forall (λ ll, LaborLine.DeletedAt ll = None) lls.
Proof.
  revert acc. induction items as [|item rest IH]; intros acc; cbn [collectLaborLines].
  - by intros [= <-].
  - destruct (UnmarshalMap item) as [ll|]; [|discriminate].
    destruct (IsDeleted ll) eqn:Hdel; cbn [negb]; intros Hc Hacc.
    + by apply (IH acc).
    + apply (IH _ Hc). apply Forall_app. split; [done|].
      apply Forall_singleton. by apply IsDeleted_false.
Qed.

Lemma ListLaborLines_not_deleted (input : ListLaborLinesInput.t) (st st' : T)
    (lls : list LaborLine.t) :
  ListLaborLines tableName input st = (st', Ok lls) →
  Forall (λ ll, LaborLine.DeletedAt ll = None) lls.
Proof.
  unfold ListLaborLines. destruct (Query _ st) as [st1 [items|]]; [|discriminate].
  destruct (collectLaborLines items []) as [laborLines|] eqn:Hc; [|discriminate].
  intros [= _ <-]. by apply (collectLaborLines_not_deleted items []).
Qed.

(** C5. Whatever the store holds and answers, a record that [get] or
    [list] returns has no [deletedAt], at the adapter and in the response
    of the handler.  On the table, a lookup that hits a tombstoned item is
    answered as not found, and the loop of [list] keeps exactly the decoded
    items that are not tombstoned. *)
Theorem tombstones_never_returned :
  (∀ input (st : T) ll,
     (GetLaborLine tableName input st).2 = Ok (Some ll) → LaborLine.DeletedAt ll = None)
  ∧ (∀ input (st : T) lls,
       (ListLaborLines tableName input st).2 = Ok lls →
       Forall (λ ll, LaborLine.DeletedAt ll = None) lls)
  ∧ (∀ event (st : T),
       Forall (λ ll, LaborLine.DeletedAt ll = None) (recordsOf (handleGet tableName event st).2.1)
       ∧ Forall (λ ll, LaborLine.DeletedAt ll = None)
                (recordsOf (handleList tableName event st).2.1))
  ∧ (∀ input (t : Table) item ll,
       table_wf t →
       t !! (GetLaborLineInput.AccountID input,
             GetLaborLineInput.TaskID input ++ "#" ++ GetLaborLineInput.LaborLineID input)
         = Some item →
       UnmarshalMap item = Ok ll → LaborLine.DeletedAt ll ≠ None →
       GetLaborLine tableName input t = (t, Ok None))
  ∧ (∀ items decoded,
       Forall2 (λ item ll, UnmarshalMap item = Ok ll) items decoded →
       collectLaborLines items [] = Ok (filter (λ ll, LaborLine.DeletedAt ll = None) decoded)).
Proof.
  split; [|split; [|split; [|split]]].
  - intros input st ll. destruct (GetLaborLine tableName input st) as [st' r] eqn:Hg.
    cbn. intros ->. by apply (GetLaborLine_not_deleted _ _ _ _ Hg).
  - intros input st lls. destruct (ListLaborLines tableName input st) as [st' r] eqn:Hl.
    cbn. intros ->. by apply (ListLaborLines_not_deleted _ _ _ _ Hl).
  - intros event st. split.
    + unfold handleGet. destruct (GetInputArgument event _) as [input|]; [|by constructor].
      destruct (GetLaborLine tableName input st) as [st' [[ll|]|]] eqn:Hg;
        try by constructor.
      apply Forall_singleton. by apply (GetLaborLine_not_deleted _ _ _ _ Hg).
    + unfold handleList. destruct (GetInputArgument event _) as [input|]; [|by constructor].
      destruct (ListLaborLines tableName input st) as [st' [lls|]] eqn:Hl;
        try by constructor.
      by apply (ListLaborLines_not_deleted _ _ _ _ Hl).
  - intros input t item ll Hwf Hitem Hu Hdel.
    apply (table_GetLaborLine_tombstoned tableName input t item ll); try done.
    destruct (IsDeleted ll) eqn:Hd; [done|]. by apply IsDeleted_false in Hd.
  - intros items decoded Hdec. by rewrite (collectLaborLines_filter items decoded []).
Qed.

End tombstone_properties.

(** ** The handlers on the table *)

Section handler_on_table.
Variable tableName : string.
Variable uuid_Parse : string → bool.
Variable schema_Validate : gmap string any → result (list string).
Context {decodeCreate : JSONTarget CreateLaborLineInput.t}
        {decodeUpdate : JSONTarget UpdateLaborLineInput.t}
        {decodeDelete : JSONTarget DeleteLaborLineInput.t}
        {decodeGet : JSONTarget GetLaborLineInput.t}
        {decodeList : JSONTarget ListLaborLinesInput.t}.

(** A stored item has both key attributes. *)
Lemma stored_item_has_keys (t : Table) (k : string * string) (item : Item) :
  table_wf t → t !! k = Some item →
  is_Some (item !! "PK") ∧ is_Some (item !! "SK") ∧ k.1 ≠ "" ∧ k.2 ≠ "".
Proof.
  intros Hwf Hk. destruct k as [pk sk].
  apply Hwf, keyOf_Some in Hk as (-> & -> & ? & ?). eauto.
Qed.

Lemma table_CreateLaborLine_conflict (t : Table) (ll : LaborLine.t) (stored : Item) :
  table_wf t → t !! (LaborLine.PK ll, LaborLine.SK ll) = Some stored →
  CreateLaborLine tableName ll t =
    (t, Err (wrapError "creating labor line in DynamoDB" ConditionalCheckFailedException)).
Proof.
  intros Hwf Hstored.
  destruct (stored_item_has_keys t _ stored Hwf Hstored) as (Hpk & Hsk & Hk1 & Hk2).
  unfold CreateLaborLine. destruct (MarshalMap ll) as [item|] eqn:Hm; [|discriminate].
  cbn [PutItem tableClient].
  rewrite (table_PutItem_marshalled tableName ll item _ t Hm Hk1 Hk2), Hstored.
  cbn [holds createCondition]. rewrite bool_decide_eq_false_2; [reflexivity|].
  destruct Hpk as [? ->]. discriminate.
Qed.

(** C2. A create whose derived key already holds an item fails: the
    adapter returns the store's conditional-check failure (the conflict
    error of the specification) wrapped in its own message, the handler
    answers with the error envelope of a failed create, and in both cases
    the table, hence the item stored at that key, is as it was before. *)
Theorem create_on_existing_key_fails (t : Table) :
  table_wf t →
  (∀ (ll : LaborLine.t) (stored : Item),
     t !! (LaborLine.PK ll, LaborLine.SK ll) = Some stored →
     CreateLaborLine tableName ll t =
       (t, Err (wrapError "creating labor line in DynamoDB" ConditionalCheckFailedException)))
  ∧ (∀ (d : Draws) (event : AppSyncEvent) (input : CreateLaborLineInput.t) (stored : Item),
       GetInputArgument event CreateLaborLineInput.zero = Ok input →
       ValidateCreateInput uuid_Parse schema_Validate (tempID d) input = None →
       t !! (CreateLaborLineInput.AccountID input,
             CreateLaborLineInput.TaskID input ++ "#" ++ newID d) = Some stored →
       handleCreate tableName uuid_Parse schema_Validate d event t =
         (t, (errorResponse "failed to create labor line" "InternalError", None))).
Proof.
  intros Hwf. split.
  - intros ll stored. by apply table_CreateLaborLine_conflict.
  - intros d event input stored Hdec Hval Hstored.
    unfold handleCreate. rewrite Hdec, Hval.
    by rewrite (table_CreateLaborLine_conflict t (NewLaborLine (now d) (newID d) input) stored).
Qed.

(** The first of two deletes leaves a tombstone at the derived key. *)
Lemma table_DeleteLaborLine_Ok (t t1 : Table) (now1 : Z) (input : DeleteLaborLineInput.t) :
  inInt64 now1 = true →
  table_wf t →
  DeleteLaborLine tableName now1 input t = (t1, Ok ()) →
  ∃ item ll,
    t1 !! (DeleteLaborLineInput.AccountID input,
           DeleteLaborLineInput.TaskID input ++ "#" ++ DeleteLaborLineInput.LaborLineID input)
      = Some item
    ∧ UnmarshalMap item = Ok ll ∧ LaborLine.DeletedAt ll = Some now1 ∧ table_wf t1.
Proof.
  intros Hnow Hwf. unfold DeleteLaborLine. rewrite table_GetLaborLine.
  cbn [GetLaborLineInput.AccountID GetLaborLineInput.TaskID GetLaborLineInput.LaborLineID].
  case_decide; [discriminate|].
  destruct (t !! _) as [stored|] eqn:Hstored; [|discriminate].
  destruct (UnmarshalMap stored) as [existing|] eqn:Hu; [|discriminate].
  pose proof (int64Times_SoftDelete now1 existing Hnow (UnmarshalMap_int64Times _ _ Hu))
    as Htimes.
  destruct (IsDeleted existing); [discriminate|].
  destruct (MarshalMap (SoftDelete now1 existing)) as [item|] eqn:Hm; [|discriminate].
  pose proof (UnmarshalMap_keyOf _ _ _ Hu (Hwf _ _ Hstored)) as Hkey.
  destruct (stored_item_has_keys t _ stored Hwf Hstored) as (_ & _ & Hk1 & Hk2).
  cbn [PutItem tableClient].
  rewrite (table_PutItem_marshalled tableName _ item _ t Hm);
    cbn [SoftDelete LaborLine.PK LaborLine.SK]; try (rewrite Hkey in *; done).
  destruct (holds _ _) eqn:Hc; [|discriminate]. intros [= <-].
  exists item, (SoftDelete now1 existing). rewrite <- Hkey, lookup_insert_eq.
  split; [done|]. split; [by apply UnmarshalMap_MarshalMap|]. split; [done|].
  intros k' item'. destruct (decide ((DeleteLaborLineInput.AccountID input,
    DeleteLaborLineInput.TaskID input ++ "#" ++ DeleteLaborLineInput.LaborLineID input) = k'))
    as [<-|Hne].
  - rewrite lookup_insert_eq. intros [= <-]. rewrite Hkey. apply keyOf_Some.
    destruct (MarshalMap_attributes _ _ Hm) as (_ & _ & _ & _ & _ & _ & _ & _ & _ & H10 & H11).
    rewrite Hkey in Hk1, Hk2. done.
  - rewrite lookup_insert_ne by done. apply Hwf.
Qed.

(** C1, as the code has it.  After a delete that succeeded, a second delete
    of the same (accountId, taskId, id) fails: the adapter finds no visible
    record and returns "labor line not found", the table stays as the
    first delete left it, and the response envelope of the handler carries
    the error type InternalError with the message of a failed delete. *)
Theorem second_delete_fails (t t1 : Table) (d1 d2 : Draws) (event : AppSyncEvent)
    (input : DeleteLaborLineInput.t) :
  table_wf t →
  GetInputArgument event DeleteLaborLineInput.zero = Ok input →
  DeleteLaborLine tableName (now d1) input t = (t1, Ok ()) →
  DeleteLaborLine tableName (now d2) input t1 = (t1, Err (errorString "labor line not found"))
  ∧ handleDelete tableName d2 event t1 =
      (t1, ({| Data := None;
               Error_ := Some {| Message := "failed to delete labor line";
                                 Type_ := "InternalError" |} |}, None)).
Proof.
  intros Hwf Hdec Hfirst.
  destruct (table_DeleteLaborLine_Ok t t1 (now d1) input (now_inInt64 d1) Hwf Hfirst)
    as (item & ll & Hitem & Hu & Hdel & Hwf1).
  assert (Hsecond : DeleteLaborLine tableName (now d2) input t1
                    = (t1, Err (errorString "labor line not found"))).
  { unfold DeleteLaborLine.
    rewrite (table_GetLaborLine_tombstoned tableName
               (GetLaborLineInput.mk (DeleteLaborLineInput.AccountID input)
                  (DeleteLaborLineInput.TaskID input)
                  (DeleteLaborLineInput.LaborLineID input)) t1 item ll Hwf1 Hitem Hu); [done|].
    unfold IsDeleted. by rewrite Hdel. }
  split; [exact Hsecond|]. unfold handleDelete. by rewrite Hdec, Hsecond.
Qed.

(** C4, as the code has it.  An update of an existing record that has no
    [deletedAt] succeeds; the item it persists, which is also the record the
    response carries, has the [createdAt] of the record stored before and
    has for [updatedAt] the clock reading of the update.  That reading is
    not compared with the stored [updatedAt]: the new value is greater than
    or equal to the old one exactly when the clock reading is. *)
Theorem update_keeps_createdAt (t : Table) (d : Draws) (event : AppSyncEvent)
    (input : UpdateLaborLineInput.t) (item : Item) (existing : LaborLine.t) :
  table_wf t →
  GetInputArgument event UpdateLaborLineInput.zero = Ok input →
  ValidateUpdateInput uuid_Parse schema_Validate input = None →
  t !! (UpdateLaborLineInput.AccountID input,
        UpdateLaborLineInput.TaskID input ++ "#" ++ UpdateLaborLineInput.LaborLineID input)
    = Some item →
  UnmarshalMap item = Ok existing →
  item !! "deletedAt" = None →
  ∃ (item' : Item) (updated : LaborLine.t),
    handleUpdate tableName uuid_Parse schema_Validate d event t =
      (<[(UpdateLaborLineInput.AccountID input,
          UpdateLaborLineInput.TaskID input ++ "#" ++ UpdateLaborLineInput.LaborLineID input)
         := item']> t,
       (dataResponse (data_LaborLine (Some updated)), None))
    ∧ UnmarshalMap item' = Ok updated
    ∧ LaborLine.CreatedAt updated = LaborLine.CreatedAt existing
    ∧ LaborLine.UpdatedAt updated = now d
    ∧ (LaborLine.UpdatedAt existing ≤ LaborLine.UpdatedAt updated
       ↔ LaborLine.UpdatedAt existing ≤ now d).
Proof.
  intros Hwf Hdec Hval Hitem Hu Hnodel.
  destruct (stored_item_has_keys t _ item Hwf Hitem) as (Hpk & Hsk & Hk1 & Hk2).
  cbn [fst snd] in Hk1, Hk2.
  assert (Hlive : IsDeleted existing = false).
  { apply UnmarshalMap_keys in Hu as (_ & _ & Hd). rewrite Hnodel in Hd.
    injection Hd as Hd. unfold IsDeleted. by rewrite <- Hd. }
  set (laborLine := withCreatedAt (LaborLine.CreatedAt existing) (ToLaborLine (now d) input)).
  assert (Htimes : int64Times laborLine).
  { apply int64Times_update; [apply now_inInt64|by eapply UnmarshalMap_int64Times]. }
  destruct (MarshalMap laborLine) as [item'|] eqn:Hm; [|discriminate].
  exists item', laborLine.
  split; [|split; [by apply UnmarshalMap_MarshalMap|split; [done|split; [done|done]]]].
  unfold handleUpdate. rewrite Hdec, Hval.
  unfold UpdateLaborLine. rewrite table_GetLaborLine.
  cbn [ToLaborLine LaborLine.AccountID LaborLine.TaskID LaborLine.LaborLineID
       GetLaborLineInput.AccountID GetLaborLineInput.TaskID GetLaborLineInput.LaborLineID].
  rewrite decide_False by done. rewrite Hitem, Hu, Hlive.
  fold laborLine. rewrite Hm. cbn [PutItem tableClient].
  rewrite (table_PutItem_marshalled tableName laborLine item' _ t Hm Hk1 Hk2).
  cbn [laborLine withCreatedAt ToLaborLine LaborLine.PK LaborLine.SK]. rewrite Hitem.
  cbn [holds updateCondition]. rewrite !bool_decide_eq_true_2 by done. cbn [andb].
  rewrite table_GetLaborLine.
  cbn [GetLaborLineInput.AccountID GetLaborLineInput.TaskID GetLaborLineInput.LaborLineID].
  rewrite decide_False by done. rewrite lookup_insert_eq.
  by rewrite (UnmarshalMap_MarshalMap laborLine item' Htimes Hm).
Qed.

Lemma table_handleCreate_Ok (d : Draws) (event : AppSyncEvent) (input : CreateLaborLineInput.t)
    (t : Table) :
  GetInputArgument event CreateLaborLineInput.zero = Ok input →
  ValidateCreateInput uuid_Parse schema_Validate (tempID d) input = None →
  CreateLaborLineInput.AccountID input ≠ "" →
  t !! (CreateLaborLineInput.AccountID input,
        CreateLaborLineInput.TaskID input ++ "#" ++ newID d) = None →
  handleCreate tableName uuid_Parse schema_Validate d event t =
    (<[(CreateLaborLineInput.AccountID input,
        CreateLaborLineInput.TaskID input ++ "#" ++ newID d)
       := itemOf (NewLaborLine (now d) (newID d) input)]> t,
     (dataResponse (data_LaborLine (Some (NewLaborLine (now d) (newID d) input))), None)).
Proof.
  intros Hdec Hval Hacc Hfree. unfold handleCreate. rewrite Hdec, Hval.
  unfold CreateLaborLine. rewrite MarshalMap_itemOf. cbn [PutItem tableClient].
  rewrite (table_PutItem_marshalled tableName _ _ _ t (MarshalMap_itemOf _));
    [|done|apply sortKey_nonempty].
  cbn [NewLaborLine LaborLine.PK LaborLine.SK]. by rewrite Hfree.
Qed.

Lemma IsDeleted_of_attribute (item : Item) (ll : LaborLine.t) :
  UnmarshalMap item = Ok ll → item !! "deletedAt" = None → IsDeleted ll = false.
Proof.
  intros Hu Hnodel. apply UnmarshalMap_keys in Hu as (_ & _ & Hd). rewrite Hnodel in Hd.
  injection Hd as Hd. unfold IsDeleted. by rewrite <- Hd.
Qed.

Lemma table_handleUpdate_Ok (t : Table) (d : Draws) (event : AppSyncEvent)
    (input : UpdateLaborLineInput.t) (item : Item) (existing : LaborLine.t) :
  table_wf t →
  GetInputArgument event UpdateLaborLineInput.zero = Ok input →
  ValidateUpdateInput uuid_Parse schema_Validate input = None →
  t !! (UpdateLaborLineInput.AccountID input,
        UpdateLaborLineInput.TaskID input ++ "#" ++ UpdateLaborLineInput.LaborLineID input)
    = Some item →
  UnmarshalMap item = Ok existing →
  item !! "deletedAt" = None →
  let laborLine := withCreatedAt (LaborLine.CreatedAt existing) (ToLaborLine (now d) input) in
  handleUpdate tableName uuid_Parse schema_Validate d event t =
    (<[(UpdateLaborLineInput.AccountID input,
        UpdateLaborLineInput.TaskID input ++ "#" ++ UpdateLaborLineInput.LaborLineID input)
       := itemOf laborLine]> t,
     (dataResponse (data_LaborLine (Some laborLine)), None)).
Proof.
  intros Hwf Hdec Hval Hitem Hu Hnodel laborLine.
  destruct (stored_item_has_keys t _ item Hwf Hitem) as (Hpk & Hsk & Hk1 & Hk2).
  cbn [fst snd] in Hk1, Hk2.
  pose proof (IsDeleted_of_attribute item existing Hu Hnodel) as Hlive.
  unfold handleUpdate. rewrite Hdec, Hval.
  unfold UpdateLaborLine. rewrite table_GetLaborLine.
  cbn [ToLaborLine LaborLine.AccountID LaborLine.TaskID LaborLine.LaborLineID
       GetLaborLineInput.AccountID GetLaborLineInput.TaskID GetLaborLineInput.LaborLineID].
  rewrite decide_False by done. rewrite Hitem, Hu, Hlive.
  fold laborLine. rewrite (MarshalMap_itemOf laborLine). cbn [PutItem tableClient].
  rewrite (table_PutItem_marshalled tableName laborLine _ _ t (MarshalMap_itemOf laborLine)
             Hk1 Hk2).
  cbn [laborLine withCreatedAt ToLaborLine LaborLine.PK LaborLine.SK]. rewrite Hitem.
  cbn [holds updateCondition]. rewrite !bool_decide_eq_true_2 by done. cbn [andb].
  rewrite table_GetLaborLine.
  cbn [GetLaborLineInput.AccountID GetLaborLineInput.TaskID GetLaborLineInput.LaborLineID].
  rewrite decide_False by done. rewrite lookup_insert_eq.
  rewrite UnmarshalMap_itemOf; [done|].
  apply int64Times_update; [apply now_inInt64|by eapply UnmarshalMap_int64Times].
Qed.

(** C9. The [contactId] of an input is not validated and is stored as
    given.  Two create inputs, or two update inputs, that differ in that
    field only get the same verdict from the validator.  So if an input is
    accepted with one contact it is accepted with any other string in its
    place, the empty one and an ill-formed identifier too: the create
    (the update of a stored, not tombstoned record) succeeds on the
    table, the item it writes at the derived key has that string as its
    [contactId] attribute, and the record read back from the item and
    returned carries it unchanged. *)
Theorem contactId_not_validated (contactId contactId' accountId taskId laborLineId : string)
    (partId notes : option (list string)) :
  (∀ tempID,
     ValidateCreateInput uuid_Parse schema_Validate tempID
       (CreateLaborLineInput.mk contactId accountId taskId partId notes)
     = ValidateCreateInput uuid_Parse schema_Validate tempID
         (CreateLaborLineInput.mk contactId' accountId taskId partId notes))
  ∧ ValidateUpdateInput uuid_Parse schema_Validate
      (UpdateLaborLineInput.mk laborLineId contactId accountId taskId partId notes)
    = ValidateUpdateInput uuid_Parse schema_Validate
        (UpdateLaborLineInput.mk laborLineId contactId' accountId taskId partId notes)
  ∧ (∀ (t : Table) (d : Draws) (event : AppSyncEvent),
       GetInputArgument event CreateLaborLineInput.zero
         = Ok (CreateLaborLineInput.mk contactId accountId taskId partId notes) →
       ValidateCreateInput uuid_Parse schema_Validate (tempID d)
         (CreateLaborLineInput.mk contactId' accountId taskId partId notes) = None →
       accountId ≠ "" →
       t !! (accountId, taskId ++ "#" ++ newID d) = None →
       ∃ (item : Item) (record : LaborLine.t),
         handleCreate tableName uuid_Parse schema_Validate d event t
           = (<[(accountId, taskId ++ "#" ++ newID d) := item]> t,
              (dataResponse (data_LaborLine (Some record)), None))
         ∧ item !! "contactId" = Some (AttributeValueMemberS contactId)
         ∧ UnmarshalMap item = Ok record
         ∧ LaborLine.ContactID record = contactId)
  ∧ (∀ (t : Table) (d : Draws) (event : AppSyncEvent) (item : Item) (existing : LaborLine.t),
       table_wf t →
       GetInputArgument event UpdateLaborLineInput.zero
         = Ok (UpdateLaborLineInput.mk laborLineId contactId accountId taskId partId notes) →
       ValidateUpdateInput uuid_Parse schema_Validate
         (UpdateLaborLineInput.mk laborLineId contactId' accountId taskId partId notes) = None →
       t !! (accountId, taskId ++ "#" ++ laborLineId) = Some item →
       UnmarshalMap item = Ok existing →
       item !! "deletedAt" = None →
       ∃ (item' : Item) (updated : LaborLine.t),
         handleUpdate tableName uuid_Parse schema_Validate d event t
           = (<[(accountId, taskId ++ "#" ++ laborLineId) := item']> t,
              (dataResponse (data_LaborLine (Some updated)), None))
         ∧ item' !! "contactId" = Some (AttributeValueMemberS contactId)
         ∧ UnmarshalMap item' = Ok updated
         ∧ LaborLine.ContactID updated = contactId).
Proof.
  split; [reflexivity|]. split; [reflexivity|]. split.
  - intros t d event Hdec Hval Hacc Hfree.
    set (input := CreateLaborLineInput.mk contactId accountId taskId partId notes) in *.
    set (record := NewLaborLine (now d) (newID d) input).
    exists (itemOf record), record.
    split; [exact (table_handleCreate_Ok d event input t Hdec Hval Hacc Hfree)|].
    destruct (MarshalMap_attributes record _ (MarshalMap_itemOf record)) as (_ & Hc & _).
    split; [exact Hc|]. split; [|done].
    apply UnmarshalMap_itemOf, int64Times_NewLaborLine, now_inInt64.
  - intros t d event item existing Hwf Hdec Hval Hitem Hu Hnodel.
    set (input := UpdateLaborLineInput.mk laborLineId contactId accountId taskId partId notes)
      in *.
    set (updated := withCreatedAt (LaborLine.CreatedAt existing) (ToLaborLine (now d) input)).
    exists (itemOf updated), updated.
    split; [exact (table_handleUpdate_Ok t d event input item existing Hwf Hdec Hval Hitem
                     Hu Hnodel)|].
    destruct (MarshalMap_attributes updated _ (MarshalMap_itemOf updated)) as (_ & Hc & _).
    split; [exact Hc|]. split; [|done].
    apply UnmarshalMap_itemOf, int64Times_update;
      [apply now_inInt64|by eapply UnmarshalMap_int64Times].
Qed.

End handler_on_table.

(** ** Create *)

Section create_properties.
Context {T : Type} {client : DynamoDBClient T}.
Variable tableName : string.
Variable uuid_Parse : string → bool.
Variable schema_Validate : gmap string any → result (list string).
Context {decodeCreate : JSONTarget CreateLaborLineInput.t}.

(** C6, as the code has it.  For an input that decodes and passes
    validation, the record a create builds has the identifier the
    generator drew for it, whatever the input is: no field of the input
    feeds the identifier and the code does not compare the draw with the
    values of the caller, so the identifier is none of those values
    exactly when the draw is none of them.  The record has its
    [createdAt] equal to its [updatedAt] and no [deletedAt].  A create
    that does not answer with an error returns exactly this record,
    whatever the store; on the table it does so whenever the derived key
    is free. *)
Theorem create_returns_generated_record (d : Draws) (event : AppSyncEvent)
    (input : CreateLaborLineInput.t) (st : T) :
  GetInputArgument event CreateLaborLineInput.zero = Ok input →
  ValidateCreateInput uuid_Parse schema_Validate (tempID d) input = None →
  let laborLine := NewLaborLine (now d) (newID d) input in
  (LaborLine.LaborLineID laborLine = newID d
   ∧ (∀ input', LaborLine.LaborLineID (NewLaborLine (now d) (newID d) input')
                = LaborLine.LaborLineID laborLine)
   ∧ (LaborLine.LaborLineID laborLine ∉ suppliedValues input
      ↔ newID d ∉ suppliedValues input)
   ∧ LaborLine.CreatedAt laborLine = LaborLine.UpdatedAt laborLine
   ∧ LaborLine.DeletedAt laborLine = None)
  ∧ (∀ st' resp err,
       handleCreate tableName uuid_Parse schema_Validate d event st = (st', (resp, err)) →
       Error_ resp = None → Data resp = Some (data_LaborLine (Some laborLine)))
  ∧ (∀ t : Table,
       CreateLaborLineInput.AccountID input ≠ "" →
       t !! (CreateLaborLineInput.AccountID input,
             CreateLaborLineInput.TaskID input ++ "#" ++ newID d) = None →
       ∃ item,
         MarshalMap laborLine = Ok item
         ∧ handleCreate tableName uuid_Parse schema_Validate d event t =
             (<[(CreateLaborLineInput.AccountID input,
                 CreateLaborLineInput.TaskID input ++ "#" ++ newID d) := item]> t,
              (dataResponse (data_LaborLine (Some laborLine)), None))).
Proof.
  intros Hdec Hval laborLine. split; [by repeat split|]. split.
  - intros st' resp err. unfold handleCreate. rewrite Hdec, Hval. fold laborLine.
    destruct (CreateLaborLine tableName laborLine st) as [st1 [[]|e]];
      intros [= <- <- <-]; [done|discriminate].
  - intros t Hacc Hfree.
    destruct (MarshalMap laborLine) as [item|] eqn:Hm; [|discriminate].
    exists item. split; [done|].
    unfold handleCreate. rewrite Hdec, Hval. fold laborLine.
    unfold CreateLaborLine. rewrite Hm. cbn [PutItem tableClient].
    rewrite (table_PutItem_marshalled tableName laborLine item _ t Hm);
      [|done|apply sortKey_nonempty].
    cbn [laborLine NewLaborLine LaborLine.PK LaborLine.SK]. by rewrite Hfree.
Qed.

End create_properties.

(** ** The derived-key invariant *)

Section derived_key.
Variable tableName : string.
Variable uuid_Parse : string → bool.
Variable schema_Validate : gmap string any → result (list string).
Context {decodeCreate : JSONTarget CreateLaborLineInput.t}
        {decodeUpdate : JSONTarget UpdateLaborLineInput.t}
        {decodeDelete : JSONTarget DeleteLaborLineInput.t}
        {decodeGet : JSONTarget GetLaborLineInput.t}
        {decodeList : JSONTarget ListLaborLinesInput.t}.

Lemma keyConsistent_NewLaborLine (now : Z) (laborLineID : string)
    (input : CreateLaborLineInput.t) :
  keyConsistent (NewLaborLine now laborLineID input).
Proof. by split. Qed.

Lemma keyConsistent_ToLaborLine (now : Z) (input : UpdateLaborLineInput.t) :
  keyConsistent (ToLaborLine now input).
Proof. by split. Qed.

Lemma table_inv_empty : table_inv ∅.
Proof. split; intros k item Hk; by rewrite lookup_empty in Hk. Qed.

(** Writing a marshalled key-consistent record keeps the invariant. *)
Lemma table_inv_put (t t' : Table) (ll : LaborLine.t) (item : Item) (c : condition)
    (r : result unit) :
  table_inv t → keyConsistent ll → int64Times ll → MarshalMap ll = Ok item →
  table_PutItem {| put_TableName := tableName; put_Item := item;
                   put_ConditionExpression := c |} t = (t', r) →
  table_inv t'.
Proof.
  intros [Hwf Hcons] Hkc Htimes Hm Hput. split; [by eapply table_PutItem_wf|].
  revert Hput. unfold table_PutItem. cbn [put_Item put_ConditionExpression].
  destruct (keyOf item) as [k|]; [|by intros [= <- _]].
  destruct (holds c (t !! k)); intros [= <- _]; [|done].
  intros k' item'. destruct (decide (k = k')) as [<-|Hne].
  - rewrite lookup_insert_eq. intros [= <-]. exists ll.
    split; [by apply UnmarshalMap_MarshalMap|done].
  - rewrite lookup_insert_ne by done. apply Hcons.
Qed.

Lemma table_CreateLaborLine_inv (t t' : Table) (ll : LaborLine.t) (r : result unit) :
  table_inv t → keyConsistent ll → int64Times ll →
  CreateLaborLine tableName ll t = (t', r) → table_inv t'.
Proof.
  intros Hinv Hkc Htimes. unfold CreateLaborLine.
  destruct (MarshalMap ll) as [item|] eqn:Hm; [|by intros [= <- _]].
  cbn [PutItem tableClient]. destruct (table_PutItem _ t) as [t1 r1] eqn:Hput.
  assert (table_inv t1) by (by eapply table_inv_put).
  by destruct r1; intros [= <- _].
Qed.

(** A record found on a table that satisfies the invariant sits at the key
    derived from the identifiers of the request and is key-consistent. *)
Lemma table_GetLaborLine_consistent (t t' : Table) (input : GetLaborLineInput.t)
    (ll : LaborLine.t) :
  table_inv t → GetLaborLine tableName input t = (t', Ok (Some ll)) →
  t' = t ∧ keyConsistent ll
  ∧ LaborLine.PK ll = GetLaborLineInput.AccountID input
  ∧ LaborLine.SK ll = GetLaborLineInput.TaskID input ++ "#" ++ GetLaborLineInput.LaborLineID input.
Proof.
  intros [Hwf Hcons]. rewrite table_GetLaborLine. case_decide; [discriminate|].
  destruct (t !! _) as [item|] eqn:Hitem; [|discriminate].
  destruct (UnmarshalMap item) as [laborLine|] eqn:Hu; [|discriminate].
  destruct (IsDeleted laborLine); [discriminate|]. intros [= <- <-].
  destruct (Hcons _ _ Hitem) as (ll' & Hu' & Hkc).
  assert (ll' = laborLine) as -> by congruence.
  pose proof (UnmarshalMap_keyOf _ _ _ Hu (Hwf _ _ Hitem)) as [= Hpk Hsk]. done.
Qed.

(** A record found on the table has [int64] timestamps. *)
Lemma table_GetLaborLine_int64Times (t t' : Table) (input : GetLaborLineInput.t)
    (ll : LaborLine.t) :
  GetLaborLine tableName input t = (t', Ok (Some ll)) → int64Times ll.
Proof.
  rewrite table_GetLaborLine. case_decide; [discriminate|].
  destruct (t !! _) as [item|]; [|discriminate].
  destruct (UnmarshalMap item) as [laborLine|] eqn:Hu; [|discriminate].
  destruct (IsDeleted laborLine); [discriminate|]. intros [= <- <-].
  by eapply UnmarshalMap_int64Times.
Qed.

Lemma table_UpdateLaborLine_inv (t t' : Table) (ll : LaborLine.t) (r : result unit) :
  table_inv t → keyConsistent ll → int64Times ll →
  UpdateLaborLine tableName ll t = (t', r) → table_inv t'.
Proof.
  intros Hinv Hkc Htimes. unfold UpdateLaborLine.
  match goal with |- context [GetLaborLine tableName ?i t] =>
    pose proof (table_GetLaborLine_state tableName i t) as Hst;
    destruct (GetLaborLine tableName i t) as [t1 [[existing|]|]] eqn:Hg
  end; cbn in Hst; subst t1; try by intros [= <- _].
  apply table_GetLaborLine_int64Times in Hg.
  destruct (MarshalMap _) as [item|] eqn:Hm; [|by intros [= <- _]].
  cbn [PutItem tableClient]. destruct (table_PutItem _ t) as [t1 r1] eqn:Hput.
  assert (table_inv t1).
  { eapply table_inv_put; [done| | |exact Hm|exact Hput]; [by destruct Hkc|].
    by apply int64Times_withCreatedAt. }
  by destruct r1; intros [= <- _].
Qed.

Lemma table_DeleteLaborLine_inv (t t' : Table) (now1 : Z) (input : DeleteLaborLineInput.t)
    (r : result unit) :
  inInt64 now1 = true →
  table_inv t → DeleteLaborLine tableName now1 input t = (t', r) → table_inv t'.
Proof.
  intros Hnow Hinv. unfold DeleteLaborLine.
  match goal with |- context [GetLaborLine tableName ?i t] =>
    pose proof (table_GetLaborLine_state tableName i t) as Hst;
    destruct (GetLaborLine tableName i t) as [t1 [[existing|]|]] eqn:Hg
  end; cbn in Hst; subst t1; try by intros [= <- _].
  pose proof (table_GetLaborLine_int64Times _ _ _ _ Hg) as Htimes.
  apply (table_GetLaborLine_consistent t) in Hg as (_ & Hkc & _); [|done].
  destruct (MarshalMap _) as [item|] eqn:Hm; [|by intros [= <- _]].
  cbn [PutItem tableClient]. destruct (table_PutItem _ t) as [t1 r1] eqn:Hput.
  assert (table_inv t1).
  { eapply table_inv_put; [done| | |exact Hm|exact Hput]; [by destruct Hkc|].
    by apply int64Times_SoftDelete. }
  by destruct r1; intros [= <- _].
Qed.

(** A query returns stored items and leaves the table as it is. *)
Lemma table_Query_items (t t' : Table) (input : QueryInput) (items : list Item) :
  table_Query input t = (t', Ok items) →
  t' = t ∧ ∀ item, item ∈ items → ∃ k, t !! k = Some item.
Proof.
  unfold table_Query. case_decide; [discriminate|]. intros [= <- <-]. split; [done|].
  intros item Hin. apply list_elem_of_fmap in Hin as ([k item'] & -> & Hin).
  rewrite merge_sort_Permutation in Hin. apply list_elem_of_filter in Hin as [_ Hin].
  apply elem_of_map_to_list in Hin. by exists k.
Qed.

Lemma collectLaborLines_Forall (P : LaborLine.t → Prop) (items : list Item)
    (acc lls : list LaborLine.t) :
  (∀ item ll, item ∈ items → UnmarshalMap item = Ok ll → P ll) →
  collectLaborLines items acc = Ok lls → Forall P acc → Forall P lls.
Proof.
  revert acc. induction items as [|item rest IH]; intros acc HP; cbn [collectLaborLines].
  - by intros [= <-].
  - destruct (UnmarshalMap item) as [ll|] eqn:Hu; [|discriminate].
    assert (HP' : ∀ item ll, item ∈ rest → UnmarshalMap item = Ok ll → P ll).
    { intros ? ? Hin. apply HP. by right. }
    destruct (IsDeleted ll); cbn [negb]; intros Hc Hacc.
    + by apply (IH acc).
    + apply (IH _ HP' Hc). apply Forall_app. split; [done|].
      apply Forall_singleton. apply (HP item); [by left|done].
Qed.

Lemma table_ListLaborLines_consistent (t t' : Table) (input : ListLaborLinesInput.t)
    (r : result (list LaborLine.t)) :
  table_inv t → ListLaborLines tableName input t = (t', r) →
  t' = t ∧ ∀ lls, r = Ok lls → Forall keyConsistent lls.
Proof.
  intros [Hwf Hcons]. unfold ListLaborLines. cbn [Query tableClient].
  destruct (table_Query _ t) as [t1 [items|]] eqn:Hq.
  - apply table_Query_items in Hq as [-> Hitems].
    destruct (collectLaborLines items []) as [laborLines|] eqn:Hc; intros [= <- <-];
      (split; [done|]); intros lls [= <-].
    apply (collectLaborLines_Forall keyConsistent items [] laborLines); [|done|constructor].
    intros item ll Hin Hu. destruct (Hitems item Hin) as [k Hk].
    destruct (Hcons _ _ Hk) as (ll' & Hu' & Hkc). congruence.
  - revert Hq. unfold table_Query. case_decide; [|discriminate].
    intros [= <- _] [= <- <-]. by split.
Qed.

(** C7. The records the system builds are key-consistent: the partition
    key is the accountId and the sort key is the taskId, "#" and the
    identifier.  A lookup addresses the key derived from the identifiers
    of the request, and the record found there carries that very key.
    The empty table satisfies the table invariant and every operation of
    the dispatcher keeps it, so that starting from the empty table every
    stored item and every record of a response is key-consistent. *)
Theorem derived_key_invariant :
  (∀ now laborLineID input, keyConsistent (NewLaborLine now laborLineID input))
  ∧ (∀ now input, keyConsistent (ToLaborLine now input))
  ∧ table_inv ∅
  ∧ (∀ (t t' : Table) input ll,
       table_inv t → GetLaborLine tableName input t = (t', Ok (Some ll)) →
       keyConsistent ll
       ∧ LaborLine.PK ll = GetLaborLineInput.AccountID input
       ∧ LaborLine.SK ll = GetLaborLineInput.TaskID input ++ "#"
                             ++ GetLaborLineInput.LaborLineID input)
  ∧ (∀ (d : Draws) (event : AppSyncEvent) (t : Table),
       table_inv t →
       table_inv (HandleAppSyncEvent tableName uuid_Parse schema_Validate d event t).1
       ∧ Forall keyConsistent
           (recordsOf (HandleAppSyncEvent tableName uuid_Parse schema_Validate d event t).2.1)).
Proof.
  split; [exact keyConsistent_NewLaborLine|]. split; [exact keyConsistent_ToLaborLine|].
  split; [exact table_inv_empty|]. split.
  { intros t t' input ll Hinv Hg.
    by destruct (table_GetLaborLine_consistent t t' input ll Hinv Hg) as (_ & ? & ? & ?). }
  intros d event t Hinv. unfold HandleAppSyncEvent. repeat case_decide.
  - unfold handleCreate. destruct (GetInputArgument event _) as [input|]; [|by split].
    destruct (ValidateCreateInput _ _ _ _); [by split|].
    destruct (CreateLaborLine _ _ t) as [t1 r] eqn:Hc.
    apply table_CreateLaborLine_inv in Hc;
      [|done|apply keyConsistent_NewLaborLine|apply int64Times_NewLaborLine, now_inInt64].
    destruct r; (split; [done|]); [|constructor].
    apply Forall_singleton, keyConsistent_NewLaborLine.
  - unfold handleUpdate. destruct (GetInputArgument event _) as [input|]; [|by split].
    destruct (ValidateUpdateInput _ _ _); [by split|].
    destruct (UpdateLaborLine _ _ t) as [t1 r] eqn:Hu.
    apply table_UpdateLaborLine_inv in Hu;
      [|done|apply keyConsistent_ToLaborLine|apply int64Times_ToLaborLine, now_inInt64].
    destruct r; [|by split].
    match goal with |- context [GetLaborLine tableName ?i t1] =>
      pose proof (table_GetLaborLine_state tableName i t1) as Hst;
      destruct (GetLaborLine tableName i t1) as [t2 [[ll|]|]] eqn:Hg
    end; cbn in Hst; subst t2; (split; [done|]); try constructor; [|constructor].
    by apply (table_GetLaborLine_consistent t1) in Hg as (_ & ? & _).
  - unfold handleDelete. destruct (GetInputArgument event _) as [input|]; [|by split].
    destruct (DeleteLaborLine _ _ _ t) as [t1 r] eqn:Hd.
    apply table_DeleteLaborLine_inv in Hd; [|apply now_inInt64|done]. by destruct r; split.
  - unfold handleGet. destruct (GetInputArgument event _) as [input|]; [|by split].
    pose proof (table_GetLaborLine_state tableName input t) as Hst.
    destruct (GetLaborLine tableName input t) as [t1 [[ll|]|]] eqn:Hg;
      cbn in Hst; subst t1; (split; [done|]); try constructor; [|constructor].
    by apply (table_GetLaborLine_consistent t) in Hg as (_ & ? & _).
  - unfold handleList. destruct (GetInputArgument event _) as [input|]; [|by split].
    destruct (ListLaborLines tableName input t) as [t1 r] eqn:Hl.
    apply (table_ListLaborLines_consistent t) in Hl as [-> Hl]; [|done].
    destruct r as [lls|]; (split; [done|]); [by apply Hl|constructor].
  - by split.
Qed.

End derived_key.

(** ** The worked example, step by step *)

(** Closes an equation between closed terms by evaluating both sides. *)
Ltac by_evaluation :=
  lazymatch goal with
  | |- @eq ?A ?l ?r => vm_cast_no_check (@eq_refl A r)
  end.

Example example_create :
  exampleHandle (exampleDraws 1700000100) createEvent ∅
  = (exampleTable, (dataResponse (data_LaborLine (Some exampleRecord)), None)).
Proof. by_evaluation. Qed.

Example example_delete :
  (exampleHandle (exampleDraws 1700000200) deleteEvent exampleTable).1 = exampleDeletedTable.
Proof. by_evaluation. Qed.

Lemma exampleTable_wf : table_wf exampleTable.
Proof.
  unfold exampleTable. intros k item [<- <-]%lookup_singleton_Some. by_evaluation.
Qed.

Lemma exampleDeletedTable_wf : table_wf exampleDeletedTable.
Proof.
  unfold exampleDeletedTable. intros k item [<- <-]%lookup_singleton_Some. by_evaluation.
Qed.

Lemma unsupported_operation_response_witness :
  (info_FieldName (Info renameEvent) ∉ operations)
  ∧ exampleHandle (exampleDraws 1700000100) renameEvent exampleTable =
      (exampleTable,
       ({| Data := None;
           Error_ := Some {| Message := "unsupported operation: renameLaborLine";
                             Type_ := "UnsupportedOperation" |} |}, None)).
Proof.
  assert (H : info_FieldName (Info renameEvent) ∉ operations).
  { apply (bool_decide_unpack _). vm_compute. exact I. }
  split; [exact H|].
  exact (unsupported_operation_response "labor-lines" canonicalUUID embeddedSchema
           (exampleDraws 1700000100) renameEvent exampleTable H).
Defined.

Lemma missing_input_decodes_to_zero_witness :
  Arguments bareGetEvent !! "input" = None
  ∧ GetInputArgument bareGetEvent GetLaborLineInput.zero = Ok GetLaborLineInput.zero
  ∧ handleGet "labor-lines" bareGetEvent exampleTable =
      (exampleTable, (errorResponse "failed to get labor line" "InternalError", None)).
Proof.
  assert (H : Arguments bareGetEvent !! "input" = None) by by_evaluation.
  destruct (missing_input_decodes_to_zero "labor-lines" canonicalUUID embeddedSchema
              (exampleDraws 1700000100) bareGetEvent exampleTable H) as (H1 & H2 & _).
  split; [exact H|]. split; [apply H1|]. rewrite H2. by_evaluation.
Defined.

Lemma format_checks_precede_schema_witness :
  validateData canonicalUUID embeddedSchema exampleBadPart
    = Some (errorString "invalid UUID format for partId[1]: not-a-uuid")
  ∧ embeddedSchema exampleBadShape
    = Ok ["partId: array items[0,1] must be unique";
          "notes.0: String length must be greater than or equal to 1"]
  ∧ validateData canonicalUUID embeddedSchema exampleBadShape
    = Some (errorString ("validation failed: [partId: array items[0,1] must be unique "
                         ++ "notes.0: String length must be greater than or equal to 1]")).
Proof.
  assert (Hs : embeddedSchema exampleBadShape
               = Ok ["partId: array items[0,1] must be unique";
                     "notes.0: String length must be greater than or equal to 1"])
    by by_evaluation.
  pose proof (format_checks_precede_schema canonicalUUID embeddedSchema exampleBadPart) as H1.
  pose proof (format_checks_precede_schema canonicalUUID embeddedSchema exampleBadShape) as H2.
  assert (Hv1 : firstFormatViolation canonicalUUID exampleBadPart
                = Some ("partId[1]", "not-a-uuid")) by by_evaluation.
  assert (Hv2 : firstFormatViolation canonicalUUID exampleBadShape = None) by by_evaluation.
  rewrite Hv1 in H1. rewrite Hv2 in H2.
  split; [exact (H1 embeddedSchema)|]. split; [exact Hs|]. exact (H2 _ Hs).
Defined.

Lemma create_on_existing_key_fails_witness :
  table_wf exampleTable
  ∧ CreateLaborLine "labor-lines" exampleRecord exampleTable =
      (exampleTable,
       Err (wrapError "creating labor line in DynamoDB" ConditionalCheckFailedException))
  ∧ handleCreate "labor-lines" canonicalUUID embeddedSchema (exampleDraws 1700000300)
      createEvent exampleTable =
      (exampleTable, (errorResponse "failed to create labor line" "InternalError", None)).
Proof.
  destruct (create_on_existing_key_fails "labor-lines" canonicalUUID embeddedSchema
              exampleTable exampleTable_wf) as [H1 H2].
  split; [exact exampleTable_wf|]. split.
  - apply (H1 exampleRecord (itemOf exampleRecord)). by_evaluation.
  - apply (H2 (exampleDraws 1700000300) createEvent exampleCreateInput (itemOf exampleRecord));
      by_evaluation.
Defined.

(** The claim of C1 fails: in the worked example the first delete
    succeeds and the envelope of the second one has the error type
    InternalError, not NotFound. *)
Lemma second_delete_is_not_NotFound :
  exampleHandle (exampleDraws 1700000200) deleteEvent exampleTable
    = (exampleDeletedTable,
       (dataResponse (data_map (<["success" := any_bool true]>
          (<["message" := any_string "labor line deleted successfully"]> ∅))), None))
  ∧ exampleHandle (exampleDraws 1700000300) deleteEvent exampleDeletedTable
    = (exampleDeletedTable,
       (errorResponse "failed to delete labor line" "InternalError", None))
  ∧ ¬ (∃ e, Error_ (exampleHandle (exampleDraws 1700000300) deleteEvent
                      exampleDeletedTable).2.1 = Some e
            ∧ Type_ e = "NotFound").
Proof.
  assert (H2 : exampleHandle (exampleDraws 1700000300) deleteEvent exampleDeletedTable
               = (exampleDeletedTable,
                  (errorResponse "failed to delete labor line" "InternalError", None)))
    by by_evaluation.
  split; [by_evaluation|]. split; [exact H2|].
  rewrite H2. intros (e & [= <-] & Ht). discriminate Ht.
Qed.

Lemma second_delete_fails_witness :
  table_wf exampleTable
  ∧ DeleteLaborLine "labor-lines" 1700000200 exampleDeleteInput exampleTable
    = (exampleDeletedTable, Ok ())
  ∧ DeleteLaborLine "labor-lines" 1700000300 exampleDeleteInput exampleDeletedTable
    = (exampleDeletedTable, Err (errorString "labor line not found"))
  ∧ handleDelete "labor-lines" (exampleDraws 1700000300) deleteEvent exampleDeletedTable
    = (exampleDeletedTable,
       ({| Data := None;
           Error_ := Some {| Message := "failed to delete labor line";
                             Type_ := "InternalError" |} |}, None)).
Proof.
  assert (Hdec : GetInputArgument deleteEvent DeleteLaborLineInput.zero = Ok exampleDeleteInput)
    by by_evaluation.
  assert (Hfirst : DeleteLaborLine "labor-lines" (now (exampleDraws 1700000200))
                     exampleDeleteInput exampleTable = (exampleDeletedTable, Ok ()))
    by by_evaluation.
  destruct (second_delete_fails "labor-lines" exampleTable exampleDeletedTable
              (exampleDraws 1700000200) (exampleDraws 1700000300) deleteEvent
              exampleDeleteInput exampleTable_wf Hdec Hfirst) as [H1 H2].
  split; [exact exampleTable_wf|]. split; [exact Hfirst|]. split; [exact H1|exact H2].
Defined.

(** The claim of C4 fails in its second half: the record of the worked
    example was stored with [updatedAt] 1700000100; an update handled at
    clock reading 1700000050 succeeds, keeps [createdAt], and persists the
    smaller [updatedAt]. *)
Lemma update_can_lower_updatedAt :
  GetLaborLine "labor-lines" exampleGetInput exampleTable
    = (exampleTable, Ok (Some exampleRecord))
  ∧ (exampleHandle (exampleDraws 1700000050) updateEvent exampleTable).2
    = (dataResponse (data_LaborLine (Some exampleUpdated)), None)
  ∧ UnmarshalMap <$> (exampleHandle (exampleDraws 1700000050) updateEvent exampleTable).1
                       !! exampleKey
    = Some (Ok exampleUpdated)
  ∧ LaborLine.CreatedAt exampleUpdated = LaborLine.CreatedAt exampleRecord
  ∧ ¬ (LaborLine.UpdatedAt exampleRecord ≤ LaborLine.UpdatedAt exampleUpdated).
Proof.
  split; [by_evaluation|]. split; [by_evaluation|]. split; [by_evaluation|].
  split; [reflexivity|]. vm_compute. intros H. apply H. reflexivity.
Qed.

Lemma update_keeps_createdAt_witness :
  ∃ (item' : Item) (updated : LaborLine.t),
    handleUpdate "labor-lines" canonicalUUID embeddedSchema (exampleDraws 1700000300)
      updateEvent exampleTable =
      (<[exampleKey := item']> exampleTable,
       (dataResponse (data_LaborLine (Some updated)), None))
    ∧ UnmarshalMap item' = Ok updated
    ∧ LaborLine.CreatedAt updated = 1700000100
    ∧ LaborLine.UpdatedAt updated = 1700000300
    ∧ (LaborLine.UpdatedAt exampleRecord ≤ LaborLine.UpdatedAt updated
       ↔ LaborLine.UpdatedAt exampleRecord ≤ 1700000300).
Proof.
  apply (update_keeps_createdAt "labor-lines" canonicalUUID embeddedSchema exampleTable
           (exampleDraws 1700000300) updateEvent exampleUpdateInput
           (itemOf exampleRecord) exampleRecord exampleTable_wf); by_evaluation.
Defined.

Lemma tombstones_never_returned_witness :
  GetLaborLine "labor-lines" exampleGetInput exampleDeletedTable = (exampleDeletedTable, Ok None)
  ∧ LaborLine.DeletedAt exampleRecord = None
  ∧ collectLaborLines [itemOf exampleRecord; itemOf exampleTombstone] [] = Ok [exampleRecord].
Proof.
  destruct (tombstones_never_returned (T:=Table) "labor-lines") as (H1 & _ & _ & H4 & H5).
  split; [|split].
  - apply (H4 exampleGetInput exampleDeletedTable (itemOf exampleTombstone) exampleTombstone);
      [exact exampleDeletedTable_wf|by_evaluation|by_evaluation|discriminate].
  - apply (H1 exampleGetInput exampleTable exampleRecord). by_evaluation.
  - apply (H5 [itemOf exampleRecord; itemOf exampleTombstone] [exampleRecord; exampleTombstone]).
    repeat constructor; by_evaluation.
Defined.

(** The claim of C6 fails in its first part: a caller who supplies as
    contact the very identifier the generator draws gets a valid create
    whose record has an identifier equal to a value the caller supplied. *)
Lemma created_id_can_be_a_supplied_value :
  GetInputArgument collidingEvent CreateLaborLineInput.zero = Ok collidingInput
  ∧ ValidateCreateInput canonicalUUID embeddedSchema (tempID collidingDraws) collidingInput
    = None
  ∧ exampleHandle collidingDraws collidingEvent ∅
    = ({[ (exampleAccount, exampleTask ++ "#" ++ collidingID)
          := itemOf (NewLaborLine 1700000100 collidingID collidingInput) ]},
       (dataResponse
          (data_LaborLine (Some (NewLaborLine 1700000100 collidingID collidingInput))),
        None))
  ∧ LaborLine.LaborLineID (NewLaborLine 1700000100 collidingID collidingInput)
    = CreateLaborLineInput.ContactID collidingInput
  ∧ ¬ (LaborLine.LaborLineID (NewLaborLine 1700000100 collidingID collidingInput)
       ∉ suppliedValues collidingInput).
Proof.
  split; [by_evaluation|]. split; [by_evaluation|]. split; [by_evaluation|].
  split; [reflexivity|]. intros Hnot. apply Hnot. apply list_elem_of_here.
Qed.

Lemma create_returns_generated_record_witness :
  GetInputArgument createEvent CreateLaborLineInput.zero = Ok exampleCreateInput
  ∧ ValidateCreateInput canonicalUUID embeddedSchema exampleTempID exampleCreateInput = None
  ∧ (LaborLine.LaborLineID exampleRecord = exampleID
     ∧ (LaborLine.LaborLineID exampleRecord ∉ suppliedValues exampleCreateInput
        ↔ exampleID ∉ suppliedValues exampleCreateInput)
     ∧ LaborLine.CreatedAt exampleRecord = LaborLine.UpdatedAt exampleRecord
     ∧ LaborLine.DeletedAt exampleRecord = None)
  ∧ ∃ item,
      MarshalMap exampleRecord = Ok item
      ∧ handleCreate "labor-lines" canonicalUUID embeddedSchema (exampleDraws 1700000100)
          createEvent (∅ : Table) =
          (<[exampleKey := item]> ∅, (dataResponse (data_LaborLine (Some exampleRecord)), None)).
Proof.
  assert (Hdec : GetInputArgument createEvent CreateLaborLineInput.zero = Ok exampleCreateInput)
    by by_evaluation.
  assert (Hval : ValidateCreateInput canonicalUUID embeddedSchema
                   (tempID (exampleDraws 1700000100)) exampleCreateInput = None)
    by by_evaluation.
  destruct (create_returns_generated_record (T:=Table) "labor-lines" canonicalUUID
              embeddedSchema (exampleDraws 1700000100) createEvent exampleCreateInput ∅
              Hdec Hval)
    as ((Hid & _ & Hiff & Hts & Hdel) & _ & Htable).
  split; [exact Hdec|]. split; [exact Hval|].
  split; [exact (conj Hid (conj Hiff (conj Hts Hdel)))|].
  apply (Htable ∅); [discriminate|by_evaluation].
Defined.

Lemma contactId_not_validated_witness :
  ValidateCreateInput canonicalUUID embeddedSchema exampleTempID
    (CreateLaborLineInput.mk "" exampleAccount exampleTask None (Some ["n1"])) = None
  ∧ ∃ (item : Item) (record : LaborLine.t),
      handleCreate "labor-lines" canonicalUUID embeddedSchema (exampleDraws 1700000100)
        createEvent (∅ : Table)
        = (<[exampleKey := item]> ∅, (dataResponse (data_LaborLine (Some record)), None))
      ∧ item !! "contactId" = Some (AttributeValueMemberS "not-a-uuid")
      ∧ UnmarshalMap item = Ok record
      ∧ LaborLine.ContactID record = "not-a-uuid".
Proof.
  assert (Hval : ValidateCreateInput canonicalUUID embeddedSchema
                   (tempID (exampleDraws 1700000100))
                   (CreateLaborLineInput.mk "" exampleAccount exampleTask None (Some ["n1"]))
                 = None) by by_evaluation.
  assert (Hdec : GetInputArgument createEvent CreateLaborLineInput.zero
                 = Ok (CreateLaborLineInput.mk "not-a-uuid" exampleAccount exampleTask None
                         (Some ["n1"]))) by by_evaluation.
  destruct (contactId_not_validated "labor-lines" canonicalUUID embeddedSchema
              "not-a-uuid" "" exampleAccount exampleTask exampleID None (Some ["n1"]))
    as (_ & _ & Hcreate & _).
  split; [exact Hval|].
  apply (Hcreate ∅ (exampleDraws 1700000100) createEvent Hdec Hval);
    [discriminate|by_evaluation].
Defined.

Lemma derived_key_invariant_witness :
  table_inv exampleTable
  ∧ Forall keyConsistent
      (recordsOf (exampleHandle (exampleDraws 1700000400) getEvent exampleTable).2.1)
  ∧ recordsOf (exampleHandle (exampleDraws 1700000400) getEvent exampleTable).2.1
    = [exampleRecord].
Proof.
  destruct (derived_key_invariant "labor-lines" canonicalUUID embeddedSchema)
    as (_ & _ & Hempty & _ & Hstep).
  assert (Hinv : table_inv exampleTable).
  { destruct (Hstep (exampleDraws 1700000100) createEvent ∅ Hempty) as [Hinv _].
    assert (Ht : (HandleAppSyncEvent "labor-lines" canonicalUUID embeddedSchema
                    (exampleDraws 1700000100) createEvent (∅ : Table)).1 = exampleTable)
      by by_evaluation.
    rewrite Ht in Hinv. exact Hinv. }
  split; [exact Hinv|]. split; [exact (proj2 (Hstep _ getEvent _ Hinv))|by_evaluation].
Defined.

(** * Further properties of the code *)

(** ** The envelope *)

Section envelope_properties.
Context {T : Type} {client : DynamoDBClient T}.
Variable uuid_Parse : string → bool.
Variable schema_Validate : gmap string any → result (list string).
Context {decodeCreate : JSONTarget CreateLaborLineInput.t}
        {decodeUpdate : JSONTarget UpdateLaborLineInput.t}
        {decodeDelete : JSONTarget DeleteLaborLineInput.t}
        {decodeGet : JSONTarget GetLaborLineInput.t}
        {decodeList : JSONTarget ListLaborLinesInput.t}.

Lemma errorResponse_wellFormed (message type : string) :
  type ∈ errorTypes → wellFormedEnvelope (errorResponse message type).
Proof. done. Qed.

Lemma HandleAppSyncEvent_wellFormed (tableName : string) (d : Draws) (event : AppSyncEvent)
    (st : T) :
  (HandleAppSyncEvent tableName uuid_Parse schema_Validate d event st).2.2 = None
  ∧ wellFormedEnvelope
      (HandleAppSyncEvent tableName uuid_Parse schema_Validate d event st).2.1.
Proof.
  assert (Hv : "ValidationError" ∈ errorTypes) by (by apply (bool_decide_unpack _)).
  assert (Hi : "InternalError" ∈ errorTypes) by (by apply (bool_decide_unpack _)).
  assert (Hn : "NotFound" ∈ errorTypes) by (by apply (bool_decide_unpack _)).
  assert (Hu : "UnsupportedOperation" ∈ errorTypes) by (by apply (bool_decide_unpack _)).
  unfold HandleAppSyncEvent. repeat case_decide.
  - unfold handleCreate. destruct (GetInputArgument event _); [|by split].
    destruct (ValidateCreateInput _ _ _ _); [by split|].
    by destruct (CreateLaborLine _ _ _) as [? []].
  - unfold handleUpdate. destruct (GetInputArgument event _); [|by split].
    destruct (ValidateUpdateInput _ _ _); [by split|].
    destruct (UpdateLaborLine _ _ _) as [? []]; [|by split].
    by destruct (GetLaborLine _ _ _) as [? []].
  - unfold handleDelete. destruct (GetInputArgument event _); [|by split].
    by destruct (DeleteLaborLine _ _ _ _) as [? []].
  - unfold handleGet. destruct (GetInputArgument event _); [|by split].
    by destruct (GetLaborLine _ _ _) as [? [[]|]].
  - unfold handleList. destruct (GetInputArgument event _); [|by split].
    by destruct (ListLaborLines _ _ _) as [? []].
  - by split.
Qed.

(** X1. Whatever the environment, the event and the store do, the entry
    point returns a nil Go error next to its response, and the response
    carries either data and no error, or no data and an error whose type
    is one of ValidationError, InternalError, NotFound,
    UnsupportedOperation and ConfigurationError. *)
Theorem envelope_always_well_formed (tableNameEnv : string) (loadDefaultConfig : option error)
    (d : Draws) (event : AppSyncEvent) (st : T) :
  (LambdaHandler uuid_Parse schema_Validate tableNameEnv loadDefaultConfig d event st).2.2 = None
  ∧ wellFormedEnvelope
      (LambdaHandler uuid_Parse schema_Validate tableNameEnv loadDefaultConfig d event st).2.1.
Proof.
  unfold LambdaHandler. case_decide.
  - split; [done|]. apply errorResponse_wellFormed. by apply (bool_decide_unpack _).
  - destruct loadDefaultConfig.
    + split; [done|]. apply errorResponse_wellFormed. by apply (bool_decide_unpack _).
    + apply HandleAppSyncEvent_wellFormed.
Qed.

(** X2. A request that is answered with ValidationError,
    UnsupportedOperation or ConfigurationError has not reached the store:
    the state of the store, whatever client stands before it, is the one
    the request found. *)
Theorem rejected_request_leaves_store (tableNameEnv : string)
    (loadDefaultConfig : option error) (d : Draws) (event : AppSyncEvent) (st : T)
    (e : AppSyncError) :
  Error_ (LambdaHandler uuid_Parse schema_Validate tableNameEnv loadDefaultConfig
            d event st).2.1 = Some e →
  Type_ e ∈ rejectionTypes →
  (LambdaHandler uuid_Parse schema_Validate tableNameEnv loadDefaultConfig d event st).1 = st.
Proof.
  assert (Hi : "InternalError" ∉ rejectionTypes) by (by apply (bool_decide_unpack _)).
  assert (Hn : "NotFound" ∉ rejectionTypes) by (by apply (bool_decide_unpack _)).
  unfold LambdaHandler. case_decide; [done|]. destruct loadDefaultConfig; [done|].
  unfold HandleAppSyncEvent. repeat case_decide.
  - unfold handleCreate. destruct (GetInputArgument event _); [|done].
    destruct (ValidateCreateInput _ _ _ _); [done|].
    destruct (CreateLaborLine _ _ _) as [? []]; [done|]. by intros [= <-].
  - unfold handleUpdate. destruct (GetInputArgument event _); [|done].
    destruct (ValidateUpdateInput _ _ _); [done|].
    destruct (UpdateLaborLine _ _ _) as [? []]; [|by intros [= <-]].
    destruct (GetLaborLine _ _ _) as [? []]; [done|]. by intros [= <-].
  - unfold handleDelete. destruct (GetInputArgument event _); [|done].
    destruct (DeleteLaborLine _ _ _ _) as [? []]; [done|]. by intros [= <-].
  - unfold handleGet. destruct (GetInputArgument event _); [|done].
    destruct (GetLaborLine _ _ _) as [? [[]|]]; [done| |]; by intros [= <-].
  - unfold handleList. destruct (GetInputArgument event _); [|done].
    destruct (ListLaborLines _ _ _) as [? []]; [done|]. by intros [= <-].
  - done.
Qed.

(** X3. The dispatcher reads the operation name in the info object of the
    event and reads the arguments; it reads nothing else.  Two events with
    the same info field name and the same arguments get the same outcome,
    whatever their top-level [fieldName] and [typeName] say. *)
Theorem dispatch_reads_info_and_arguments (tableName : string) (d : Draws)
    (event event' : AppSyncEvent) (st : T) :
  info_FieldName (Info event) = info_FieldName (Info event') →
  Arguments event = Arguments event' →
  HandleAppSyncEvent tableName uuid_Parse schema_Validate d event st
  = HandleAppSyncEvent tableName uuid_Parse schema_Validate d event' st.
Proof.
  intros Hname Hargs.
  unfold HandleAppSyncEvent, handleCreate, handleUpdate, handleDelete, handleGet, handleList,
    GetInputArgument, GetArgumentAs.
  by rewrite Hname, Hargs.
Qed.

End envelope_properties.

(** ** What an operation does to the table *)

Section table_effects.
Variable tableName : string.
Variable uuid_Parse : string → bool.
Variable schema_Validate : gmap string any → result (list string).
Context {decodeCreate : JSONTarget CreateLaborLineInput.t}
        {decodeUpdate : JSONTarget UpdateLaborLineInput.t}
        {decodeDelete : JSONTarget DeleteLaborLineInput.t}
        {decodeGet : JSONTarget GetLaborLineInput.t}
        {decodeList : JSONTarget ListLaborLinesInput.t}.

Lemma holds_exists_stored (path : string) (c : condition) (stored : option Item) :
  holds (cond_AND (attribute_exists path) c) stored = true → is_Some stored.
Proof. destruct stored; [eauto|discriminate]. Qed.

Lemma table_PutItem_written (input : PutItemInput) (t t' : Table) (r : result unit)
    (mayAdd : Prop) :
  (mayAdd ∨ ∀ stored, holds (put_ConditionExpression input) stored = true → is_Some stored) →
  table_PutItem input t = (t', r) → written t mayAdd t'.
Proof.
  intros Hadd. unfold table_PutItem.
  destruct (keyOf (put_Item input)) as [k|]; [|intros [= <- _]; constructor].
  destruct (holds _ (t !! k)) eqn:Hc; intros [= <- _]; constructor.
  destruct Hadd as [?|Hadd]; [by left|right; by apply Hadd].
Qed.

Lemma table_ListLaborLines_state (input : ListLaborLinesInput.t) (t : Table) :
  (ListLaborLines tableName input t).1 = t.
Proof.
  unfold ListLaborLines. cbn [Query tableClient]. unfold table_Query.
  repeat case_decide; try done; by destruct (collectLaborLines _ _).
Qed.

Lemma HandleAppSyncEvent_written (d : Draws) (event : AppSyncEvent) (t : Table) :
  written t (info_FieldName (Info event) = "createLaborLine")
    (HandleAppSyncEvent tableName uuid_Parse schema_Validate d event t).1.
Proof.
  unfold HandleAppSyncEvent. repeat case_decide.
  - unfold handleCreate. destruct (GetInputArgument event _); [|constructor].
    destruct (ValidateCreateInput _ _ _ _); [constructor|].
    unfold CreateLaborLine. destruct (MarshalMap _); [|constructor].
    cbn [PutItem tableClient]. destruct (table_PutItem _ t) as [t1 r] eqn:Hput.
    apply table_PutItem_written with (mayAdd := info_FieldName (Info event) = "createLaborLine")
      in Hput; [|by left].
    by destruct r.
  - unfold handleUpdate. destruct (GetInputArgument event _) as [input|]; [|constructor].
    destruct (ValidateUpdateInput _ _ _); [constructor|].
    assert (Hw : written t (info_FieldName (Info event) = "createLaborLine")
                   (UpdateLaborLine tableName (ToLaborLine (now d) input) t).1).
    { unfold UpdateLaborLine. rewrite table_GetLaborLine.
      destruct (if decide _ then _ else _) as [[existing|]|]; try constructor.
      destruct (MarshalMap _); [|constructor].
      cbn [PutItem tableClient]. destruct (table_PutItem _ t) as [t1 r] eqn:Hput.
      apply table_PutItem_written with (mayAdd := info_FieldName (Info event) = "createLaborLine")
        in Hput; [by destruct r|].
      right. intros stored. cbn [put_ConditionExpression updateCondition holds].
      intros [[Hpk _]%andb_prop _]%andb_prop. destruct stored; [eauto|discriminate]. }
    destruct (UpdateLaborLine _ _ t) as [t1 []]; [|exact Hw].
    match goal with |- context [GetLaborLine tableName ?i t1] =>
      pose proof (table_GetLaborLine_state tableName i t1) as Hst;
      destruct (GetLaborLine tableName i t1) as [t2 []]
    end; cbn in Hst; subst t2; exact Hw.
  - unfold handleDelete. destruct (GetInputArgument event _) as [input|]; [|constructor].
    assert (Hw : written t (info_FieldName (Info event) = "createLaborLine")
                   (DeleteLaborLine tableName (now d) input t).1).
    { unfold DeleteLaborLine. rewrite table_GetLaborLine.
      destruct (if decide _ then _ else _) as [[existing|]|]; try constructor.
      destruct (MarshalMap _); [|constructor].
      cbn [PutItem tableClient]. destruct (table_PutItem _ t) as [t1 r] eqn:Hput.
      apply table_PutItem_written with (mayAdd := info_FieldName (Info event) = "createLaborLine")
        in Hput; [by destruct r|].
      right. intros stored. cbn [put_ConditionExpression deleteCondition holds].
      intros [Hpk _]%andb_prop. destruct stored; [eauto|discriminate]. }
    by destruct (DeleteLaborLine _ _ _ t) as [t1 []].
  - unfold handleGet. destruct (GetInputArgument event _) as [input|]; [|constructor].
    pose proof (table_GetLaborLine_state tableName input t) as Hst.
    destruct (GetLaborLine tableName input t) as [t1 [[]|]]; cbn in Hst; subst t1; constructor.
  - unfold handleList. destruct (GetInputArgument event _) as [input|]; [|constructor].
    pose proof (table_ListLaborLines_state input t) as Hst.
    destruct (ListLaborLines tableName input t) as [t1 []]; cbn in Hst; subst t1; constructor.
  - constructor.
Qed.

(** X4. An operation of the dispatcher writes at most one item of the
    table and removes none: every key that held an item still holds one,
    at most one key holds something else than before, and only a create
    can make the table hold a key it did not hold (update, delete, get and
    list leave the set of keys as it was). *)
Theorem operation_writes_one_item (d : Draws) (event : AppSyncEvent) (t : Table) :
  (∀ k, is_Some (t !! k) →
        is_Some ((HandleAppSyncEvent tableName uuid_Parse schema_Validate d event t).1 !! k))
  ∧ (∀ k1 k2,
       (HandleAppSyncEvent tableName uuid_Parse schema_Validate d event t).1 !! k1 ≠ t !! k1 →
       (HandleAppSyncEvent tableName uuid_Parse schema_Validate d event t).1 !! k2 ≠ t !! k2 →
       k1 = k2)
  ∧ (info_FieldName (Info event) ≠ "createLaborLine" →
     dom (HandleAppSyncEvent tableName uuid_Parse schema_Validate d event t).1 = dom t).
Proof.
  destruct (HandleAppSyncEvent_written d event t) as [|k item Hadd].
  - split; [done|]. split; [done|done].
  - split; [|split].
    + intros k' Hk'. destruct (decide (k = k')) as [<-|Hne].
      * rewrite lookup_insert_eq. eauto.
      * by rewrite lookup_insert_ne.
    + intros k1 k2 H1 H2.
      destruct (decide (k = k1)) as [<-|Hne1]; [|by rewrite lookup_insert_ne in H1].
      destruct (decide (k = k2)) as [<-|Hne2]; [done|by rewrite lookup_insert_ne in H2].
    + intros Hop. destruct Hadd as [?|Hk]; [done|].
      rewrite dom_insert_L. apply subseteq_union_1_L, singleton_subseteq_l.
      by apply elem_of_dom.
Qed.

(** X5. Round trip of a create and a lookup.  When the input is valid
    and the derived key is free, the create stores the record and returns
    it, and a lookup of its three identifiers then returns that very
    record, every field as the create returned it. *)
Theorem create_then_get_round_trip (t : Table) (d : Draws) (event getEv : AppSyncEvent)
    (input : CreateLaborLineInput.t) :
  GetInputArgument event CreateLaborLineInput.zero = Ok input →
  ValidateCreateInput uuid_Parse schema_Validate (tempID d) input = None →
  CreateLaborLineInput.AccountID input ≠ "" →
  t !! (CreateLaborLineInput.AccountID input,
        CreateLaborLineInput.TaskID input ++ "#" ++ newID d) = None →
  GetInputArgument getEv GetLaborLineInput.zero
    = Ok (GetLaborLineInput.mk (CreateLaborLineInput.AccountID input)
            (CreateLaborLineInput.TaskID input) (newID d)) →
  let record := NewLaborLine (now d) (newID d) input in
  let t1 := (handleCreate tableName uuid_Parse schema_Validate d event t).1 in
  (handleCreate tableName uuid_Parse schema_Validate d event t).2
    = (dataResponse (data_LaborLine (Some record)), None)
  ∧ handleGet tableName getEv t1
    = (t1, (dataResponse (data_LaborLine (Some record)), None)).
Proof.
  intros Hdec Hval Hacc Hfree Hget record t1. subst t1.
  rewrite (table_handleCreate_Ok tableName uuid_Parse schema_Validate d event input t Hdec Hval
             Hacc Hfree). cbn [fst snd].
  split; [done|].
  unfold handleGet. rewrite Hget, table_GetLaborLine.
  cbn [GetLaborLineInput.AccountID GetLaborLineInput.TaskID GetLaborLineInput.LaborLineID].
  rewrite decide_False by done. rewrite lookup_insert_eq.
  by rewrite (UnmarshalMap_itemOf (NewLaborLine (now d) (newID d) input)
                (int64Times_NewLaborLine _ _ _ (now_inInt64 d))).
Qed.

(** X6. An update replaces the stored record as a whole.  The record
    persisted and returned has the contact, the part identifiers and the
    notes of the input as they are, whatever the stored record held: a
    field the input leaves at its zero value is reset to it (the contact
    to the empty string, a list to nil), an empty list stays an empty
    list, and nothing but [createdAt] is carried over from the stored
    record. *)
Theorem update_replaces_record (t : Table) (d : Draws) (event : AppSyncEvent)
    (input : UpdateLaborLineInput.t) (item : Item) (existing : LaborLine.t) :
  table_wf t →
  GetInputArgument event UpdateLaborLineInput.zero = Ok input →
  ValidateUpdateInput uuid_Parse schema_Validate input = None →
  t !! (UpdateLaborLineInput.AccountID input,
        UpdateLaborLineInput.TaskID input ++ "#" ++ UpdateLaborLineInput.LaborLineID input)
    = Some item →
  UnmarshalMap item = Ok existing →
  item !! "deletedAt" = None →
  ∃ updated : LaborLine.t,
    (handleUpdate tableName uuid_Parse schema_Validate d event t).2
      = (dataResponse (data_LaborLine (Some updated)), None)
    ∧ UnmarshalMap <$>
        (handleUpdate tableName uuid_Parse schema_Validate d event t).1
          !! (UpdateLaborLineInput.AccountID input,
              UpdateLaborLineInput.TaskID input ++ "#"
                ++ UpdateLaborLineInput.LaborLineID input)
      = Some (Ok updated)
    ∧ LaborLine.ContactID updated = UpdateLaborLineInput.ContactID input
    ∧ LaborLine.PartID updated = UpdateLaborLineInput.PartID input
    ∧ LaborLine.Notes updated = UpdateLaborLineInput.Notes input
    ∧ LaborLine.LaborLineID updated = UpdateLaborLineInput.LaborLineID input
    ∧ LaborLine.AccountID updated = UpdateLaborLineInput.AccountID input
    ∧ LaborLine.TaskID updated = UpdateLaborLineInput.TaskID input
    ∧ LaborLine.DeletedAt updated = None
    ∧ LaborLine.UpdatedAt updated = now d
    ∧ LaborLine.CreatedAt updated = LaborLine.CreatedAt existing.
Proof.
  intros Hwf Hdec Hval Hitem Hu Hnodel.
  rewrite (table_handleUpdate_Ok tableName uuid_Parse schema_Validate t d event input item
             existing Hwf Hdec Hval Hitem Hu Hnodel).
  eexists. split; [reflexivity|]. cbn [fst]. rewrite lookup_insert_eq. cbn [fmap option_fmap option_map].
  rewrite UnmarshalMap_itemOf; [by repeat split|].
  apply int64Times_update; [apply now_inInt64|by eapply UnmarshalMap_int64Times].
Qed.

(** A record that a lookup does not show: nothing is stored at its key, or
    what is stored there is a tombstone. *)
Lemma table_GetLaborLine_invisible (t : Table) (input : GetLaborLineInput.t) :
  table_wf t → GetLaborLineInput.AccountID input ≠ "" →
  (t !! (GetLaborLineInput.AccountID input,
         GetLaborLineInput.TaskID input ++ "#" ++ GetLaborLineInput.LaborLineID input) = None
   ∨ ∃ item ll,
       t !! (GetLaborLineInput.AccountID input,
             GetLaborLineInput.TaskID input ++ "#" ++ GetLaborLineInput.LaborLineID input)
         = Some item
       ∧ UnmarshalMap item = Ok ll ∧ LaborLine.DeletedAt ll ≠ None) →
  GetLaborLine tableName input t = (t, Ok None).
Proof.
  intros Hwf Hacc [Hnone|(item & ll & Hitem & Hu & Hdel)].
  - rewrite table_GetLaborLine, decide_False by done. by rewrite Hnone.
  - apply (table_GetLaborLine_tombstoned tableName input t item ll); try done.
    unfold IsDeleted. by destruct (LaborLine.DeletedAt ll).
Qed.

(** X7. Operations on a record that is absent or tombstoned.  A lookup
    answers NotFound.  An update and a delete fail in the adapter with
    "labor line not found", are answered with InternalError, and leave the
    table as it is: an update never brings a tombstoned record back and a
    delete never creates a tombstone for a record that was not there. *)
Theorem operations_on_invisible_record (t : Table) (accountId taskId laborLineId : string) :
  table_wf t → accountId ≠ "" →
  (t !! (accountId, taskId ++ "#" ++ laborLineId) = None
   ∨ ∃ item ll,
       t !! (accountId, taskId ++ "#" ++ laborLineId) = Some item
       ∧ UnmarshalMap item = Ok ll ∧ LaborLine.DeletedAt ll ≠ None) →
  (∀ event,
     GetInputArgument event GetLaborLineInput.zero
       = Ok (GetLaborLineInput.mk accountId taskId laborLineId) →
     handleGet tableName event t = (t, (errorResponse "labor line not found" "NotFound", None)))
  ∧ (∀ ll,
       LaborLine.AccountID ll = accountId → LaborLine.TaskID ll = taskId →
       LaborLine.LaborLineID ll = laborLineId →
       UpdateLaborLine tableName ll t = (t, Err (errorString "labor line not found")))
  ∧ (∀ d event input,
       GetInputArgument event UpdateLaborLineInput.zero = Ok input →
       ValidateUpdateInput uuid_Parse schema_Validate input = None →
       UpdateLaborLineInput.AccountID input = accountId →
       UpdateLaborLineInput.TaskID input = taskId →
       UpdateLaborLineInput.LaborLineID input = laborLineId →
       handleUpdate tableName uuid_Parse schema_Validate d event t
         = (t, (errorResponse "failed to update labor line" "InternalError", None)))
  ∧ (∀ now1,
       DeleteLaborLine tableName now1 (DeleteLaborLineInput.mk accountId taskId laborLineId) t
         = (t, Err (errorString "labor line not found")))
  ∧ (∀ d event,
       GetInputArgument event DeleteLaborLineInput.zero
         = Ok (DeleteLaborLineInput.mk accountId taskId laborLineId) →
       handleDelete tableName d event t
         = (t, (errorResponse "failed to delete labor line" "InternalError", None))).
Proof.
  intros Hwf Hacc Hinv.
  pose proof (table_GetLaborLine_invisible t
                (GetLaborLineInput.mk accountId taskId laborLineId) Hwf Hacc Hinv) as Hg.
  assert (Hupd : ∀ ll, LaborLine.AccountID ll = accountId → LaborLine.TaskID ll = taskId →
                   LaborLine.LaborLineID ll = laborLineId →
                   UpdateLaborLine tableName ll t = (t, Err (errorString "labor line not found"))).
  { intros ll Ha Ht Hi. unfold UpdateLaborLine. by rewrite Ha, Ht, Hi, Hg. }
  assert (Hdel : ∀ now1,
            DeleteLaborLine tableName now1 (DeleteLaborLineInput.mk accountId taskId laborLineId) t
            = (t, Err (errorString "labor line not found"))).
  { intros now1. unfold DeleteLaborLine. cbn. by rewrite Hg. }
  split; [|split; [exact Hupd|split; [|split; [exact Hdel|]]]].
  - intros event Hdec. unfold handleGet. by rewrite Hdec, Hg.
  - intros d event input Hdec Hval Ha Ht Hi. unfold handleUpdate. rewrite Hdec, Hval.
    by rewrite (Hupd (ToLaborLine (now d) input) Ha Ht Hi).
  - intros d event Hdec. unfold handleDelete. by rewrite Hdec, Hdel.
Qed.

(** X8. A delete is a soft delete.  For a stored record that is not
    tombstoned it succeeds and rewrites the item at the same key: the item
    stays in the table, keeps its identifiers, contact, lists, keys and
    [createdAt], and gets the clock reading of the delete as [deletedAt]
    and as [updatedAt].  From then on a lookup of the record finds
    nothing. *)
Theorem delete_is_soft (t : Table) (d : Draws) (event : AppSyncEvent)
    (input : DeleteLaborLineInput.t) (item : Item) (existing : LaborLine.t) :
  table_wf t →
  GetInputArgument event DeleteLaborLineInput.zero = Ok input →
  t !! (DeleteLaborLineInput.AccountID input,
        DeleteLaborLineInput.TaskID input ++ "#" ++ DeleteLaborLineInput.LaborLineID input)
    = Some item →
  UnmarshalMap item = Ok existing →
  LaborLine.DeletedAt existing = None →
  ∃ (item' : Item) (tombstone : LaborLine.t),
    handleDelete tableName d event t
      = (<[(DeleteLaborLineInput.AccountID input,
            DeleteLaborLineInput.TaskID input ++ "#" ++ DeleteLaborLineInput.LaborLineID input)
           := item']> t,
         (dataResponse (data_map (<["success" := any_bool true]>
            (<["message" := any_string "labor line deleted successfully"]> ∅))), None))
    ∧ UnmarshalMap item' = Ok tombstone
    ∧ tombstone = SoftDelete (now d) existing
    ∧ LaborLine.DeletedAt tombstone = Some (now d)
    ∧ LaborLine.UpdatedAt tombstone = now d
    ∧ LaborLine.CreatedAt tombstone = LaborLine.CreatedAt existing
    ∧ LaborLine.ContactID tombstone = LaborLine.ContactID existing
    ∧ GetLaborLine tableName
        (GetLaborLineInput.mk (DeleteLaborLineInput.AccountID input)
           (DeleteLaborLineInput.TaskID input) (DeleteLaborLineInput.LaborLineID input))
        (handleDelete tableName d event t).1
      = ((handleDelete tableName d event t).1, Ok None).
Proof.
  intros Hwf Hdec Hitem Hu Hlive.
  destruct (stored_item_has_keys t _ item Hwf Hitem) as (Hpk & Hsk & Hk1 & Hk2).
  cbn [fst snd] in Hk1, Hk2.
  pose proof (UnmarshalMap_keyOf _ _ _ Hu (Hwf _ _ Hitem)) as Hkey.
  set (tombstone := SoftDelete (now d) existing).
  assert (Htimes : int64Times tombstone).
  { apply int64Times_SoftDelete; [apply now_inInt64|by eapply UnmarshalMap_int64Times]. }
  assert (Hrun : handleDelete tableName d event t
            = (<[(DeleteLaborLineInput.AccountID input,
                  DeleteLaborLineInput.TaskID input ++ "#"
                    ++ DeleteLaborLineInput.LaborLineID input) := itemOf tombstone]> t,
               (dataResponse (data_map (<["success" := any_bool true]>
                  (<["message" := any_string "labor line deleted successfully"]> ∅))), None))).
  { unfold handleDelete. rewrite Hdec. unfold DeleteLaborLine. rewrite table_GetLaborLine.
    cbn [GetLaborLineInput.AccountID GetLaborLineInput.TaskID GetLaborLineInput.LaborLineID].
    rewrite decide_False by done. rewrite Hitem, Hu.
    assert (IsDeleted existing = false) as -> by (unfold IsDeleted; by rewrite Hlive).
    fold tombstone. rewrite (MarshalMap_itemOf tombstone). cbn [PutItem tableClient].
    injection Hkey as Hkpk Hksk.
    rewrite (table_PutItem_marshalled tableName tombstone _ _ t (MarshalMap_itemOf tombstone));
      cbn [tombstone SoftDelete LaborLine.PK LaborLine.SK]; [|congruence|congruence].
    rewrite <- Hkpk, <- Hksk, Hitem. cbn [holds deleteCondition].
    by rewrite !bool_decide_eq_true_2 by done. }
  exists (itemOf tombstone), tombstone. rewrite Hrun. cbn [fst].
  split; [done|]. split; [by apply UnmarshalMap_itemOf|].
  split; [done|]. split; [done|]. split; [done|]. split; [done|]. split; [done|].
  rewrite table_GetLaborLine.
  cbn [GetLaborLineInput.AccountID GetLaborLineInput.TaskID GetLaborLineInput.LaborLineID].
  rewrite decide_False by done. rewrite lookup_insert_eq.
  by rewrite (UnmarshalMap_itemOf tombstone Htimes).
Qed.

End table_effects.

(** ** Listing *)

Section list_properties.
Variable tableName : string.
Context {decodeList : JSONTarget ListLaborLinesInput.t}.

Lemma table_Query_elem (input : QueryInput) (t t' : Table) (items : list Item) :
  table_Query input t = (t', Ok items) →
  ∀ item, item ∈ items ↔ ∃ k, t !! k = Some item ∧ matchesQuery input (k, item) = true.
Proof.
  unfold table_Query. case_decide; [discriminate|]. intros [= <- <-] item.
  rewrite list_elem_of_fmap. split.
  - intros ([k item'] & -> & Hin). rewrite merge_sort_Permutation in Hin.
    apply list_elem_of_filter in Hin as [Hm Hin]. apply elem_of_map_to_list in Hin.
    exists k. split; [done|]. by apply Is_true_true.
  - intros (k & Hk & Hm). exists (k, item). split; [done|].
    rewrite merge_sort_Permutation. apply list_elem_of_filter.
    split; [by apply Is_true_true|by apply elem_of_map_to_list].
Qed.

Lemma collectLaborLines_elem (items : list Item) (acc lls : list LaborLine.t) :
  collectLaborLines items acc = Ok lls →
  ∀ ll, ll ∈ lls ↔
        ll ∈ acc ∨ ∃ item, item ∈ items ∧ UnmarshalMap item = Ok ll
                           ∧ LaborLine.DeletedAt ll = None.
Proof.
  revert acc. induction items as [|item rest IH]; intros acc; cbn [collectLaborLines].
  - intros [= <-] ll. split; [by left|]. intros [?|(item & Hin & _)]; [done|].
    by apply elem_of_nil in Hin.
  - destruct (UnmarshalMap item) as [laborLine|] eqn:Hu; [|discriminate].
    destruct (IsDeleted laborLine) eqn:Hdel; cbn [negb]; intros Hc ll;
      rewrite (IH _ Hc ll).
    + split.
      * intros [?|(item' & Hin & Hu' & Hd)]; [by left|]. right. exists item'.
        split; [by right|done].
      * intros [?|(item' & Hin & Hu' & Hd)]; [by left|].
        apply elem_of_cons in Hin as [->|Hin]; [|right; by exists item'].
        assert (ll = laborLine) as -> by congruence.
        apply IsDeleted_false in Hd. congruence.
    + apply IsDeleted_false in Hdel. rewrite elem_of_app, list_elem_of_singleton. split.
      * intros [[?| ->]|(item' & Hin & Hu' & Hd)]; [by left| |].
        -- right. exists item. split; [by left|done].
        -- right. exists item'. split; [by right|done].
      * intros [?|(item' & Hin & Hu' & Hd)]; [by left; left|].
        apply elem_of_cons in Hin as [->|Hin]; [|right; by exists item'].
        left. right. congruence.
Qed.

(** X9. What a list returns, on the table.  A successful list leaves the
    table as it is and returns exactly the records of the stored items
    that lie in the partition of the requested account, are not
    tombstoned and, when a task is given, have a sort key that starts
    with the task identifier and "#".  On a table that satisfies the
    invariant every returned record has the requested accountId. *)
Theorem list_returns_live_records_of_account (t t' : Table) (input : ListLaborLinesInput.t)
    (lls : list LaborLine.t) :
  ListLaborLines tableName input t = (t', Ok lls) →
  t' = t
  ∧ (∀ ll, ll ∈ lls ↔
       ∃ k item,
         t !! k = Some item ∧ UnmarshalMap item = Ok ll ∧ LaborLine.DeletedAt ll = None
         ∧ k.1 = ListLaborLinesInput.AccountID input
         ∧ (ListLaborLinesInput.TaskID input ≠ "" →
            String.prefix (ListLaborLinesInput.TaskID input ++ "#") k.2 = true))
  ∧ (table_inv t →
     Forall (λ ll, LaborLine.AccountID ll = ListLaborLinesInput.AccountID input) lls).
Proof.
  intros Hlist.
  pose proof (table_ListLaborLines_state tableName input t) as Hst. rewrite Hlist in Hst.
  cbn in Hst. subst t'. split; [done|].
  revert Hlist. unfold ListLaborLines. cbn [Query tableClient].
  destruct (table_Query _ t) as [t1 [items|]] eqn:Hq; [|discriminate].
  destruct (collectLaborLines items []) as [laborLines|] eqn:Hc; [|discriminate].
  intros [= _ <-].
  pose proof (table_Query_elem _ _ _ _ Hq) as Hitems.
  pose proof (collectLaborLines_elem _ _ _ Hc) as Hlls.
  assert (Hchar : ∀ ll, ll ∈ laborLines ↔
            ∃ k item,
              t !! k = Some item ∧ UnmarshalMap item = Ok ll ∧ LaborLine.DeletedAt ll = None
              ∧ k.1 = ListLaborLinesInput.AccountID input
              ∧ (ListLaborLinesInput.TaskID input ≠ "" →
                 String.prefix (ListLaborLinesInput.TaskID input ++ "#") k.2 = true)).
  { intros ll. rewrite Hlls. split.
    - intros [Hnil|(item & Hin & Hu & Hd)]; [by apply elem_of_nil in Hnil|].
      apply Hitems in Hin as (k & Hk & Hm). exists k, item.
      split; [done|]. split; [done|]. split; [done|].
      revert Hm. unfold matchesQuery. case_decide; cbn.
      + intros [Hpk Hpre]%andb_prop. apply bool_decide_eq_true in Hpk. by split.
      + intros [Hpk _]%andb_prop. apply bool_decide_eq_true in Hpk. by split.
    - intros (k & item & Hk & Hu & Hd & Hpk & Hpre). right. exists item.
      split; [|done]. apply Hitems. exists k. split; [done|].
      unfold matchesQuery. case_decide; cbn.
      + rewrite bool_decide_eq_true_2 by done. by rewrite Hpre.
      + by rewrite bool_decide_eq_true_2. }
  split; [exact Hchar|].
  intros [Hwf Hcons]. apply Forall_forall. intros ll Hin.
  apply Hchar in Hin as (k & item & Hk & Hu & _ & Hpk & _).
  destruct (Hcons _ _ Hk) as (ll' & Hu' & Hkc & _).
  assert (ll' = ll) as -> by congruence.
  pose proof (UnmarshalMap_keyOf _ _ _ Hu (Hwf _ _ Hk)) as ->. cbn in Hpk. congruence.
Qed.

Lemma collectLaborLines_Err (items : list Item) (acc : list LaborLine.t) (item : Item)
    (e : error) :
  item ∈ items → UnmarshalMap item = Err e →
  ∃ e', collectLaborLines items acc = Err (wrapError "unmarshaling labor line" e').
Proof.
  intros Hin Hu. revert acc.
  induction items as [|item' rest IH]; intros acc; [by apply elem_of_nil in Hin|].
  cbn [collectLaborLines]. destruct (UnmarshalMap item') as [ll|e'] eqn:Hu'; [|by exists e'].
  apply elem_of_cons in Hin as [->|Hin]; [congruence|].
  destruct (IsDeleted ll); cbn [negb]; by apply IH.
Qed.

(** X10. A list is all or nothing.  If one item of the query result
    cannot be decoded, the loop stops with an error and no record at all
    is returned; on the table, one undecodable item in the partition of an
    account makes every list of that whole account fail with
    InternalError. *)
Theorem list_fails_on_undecodable_item :
  (∀ items acc item e,
     item ∈ items → UnmarshalMap item = Err e →
     ∃ e', collectLaborLines items acc = Err (wrapError "unmarshaling labor line" e'))
  ∧ (∀ (t : Table) event input k item e,
       GetInputArgument event ListLaborLinesInput.zero = Ok input →
       ListLaborLinesInput.AccountID input ≠ "" →
       ListLaborLinesInput.TaskID input = "" →
       t !! k = Some item → k.1 = ListLaborLinesInput.AccountID input →
       UnmarshalMap item = Err e →
       handleList tableName event t
         = (t, (errorResponse "failed to list labor lines" "InternalError", None))).
Proof.
  split; [exact collectLaborLines_Err|].
  intros t event input k item e Hdec Hacc Htask Hk Hpk Hu.
  unfold handleList. rewrite Hdec.
  pose proof (table_ListLaborLines_state tableName input t) as Hst.
  destruct (ListLaborLines tableName input t) as [t1 [lls|]] eqn:Hl; cbn in Hst; subst t1;
    [|done].
  exfalso. revert Hl. unfold ListLaborLines. cbn [Query tableClient].
  destruct (table_Query _ t) as [t1 [items|]] eqn:Hq; [|discriminate].
  assert (Hin : item ∈ items).
  { apply (table_Query_elem _ _ _ _ Hq). exists k. split; [done|].
    unfold matchesQuery. rewrite decide_False by (rewrite Htask; tauto). cbn.
    by rewrite bool_decide_eq_true_2. }
  destruct (collectLaborLines_Err items [] item e Hin Hu) as [e' ->]. discriminate.
Qed.

End list_properties.

(** ** What the validator lets through *)

Section acceptance_properties.
Context {T : Type} {client : DynamoDBClient T}.
Variable tableName : string.
Variable uuid_Parse : string → bool.
Variable schema_Validate : gmap string any → result (list string).
Context {decodeCreate : JSONTarget CreateLaborLineInput.t}
        {decodeUpdate : JSONTarget UpdateLaborLineInput.t}.

(** X11. A create or an update whose event has no [input] argument is
    turned down by the validator, not by the decoder: provided the parser
    rejects the empty string (and, for a create, accepts the temporary
    identifier), the response is a ValidationError that names the first
    empty identifier, accountId for a create and laborLineId for an update,
    and the store is not touched. *)
Theorem mutation_without_input_is_rejected (d : Draws) (event : AppSyncEvent) (st : T) :
  Arguments event !! "input" = None →
  uuid_Parse "" = false →
  (uuid_Parse (tempID d) = true →
   handleCreate tableName uuid_Parse schema_Validate d event st
     = (st, (errorResponse
               "validation failed: invalid UUID format for field accountId: "
               "ValidationError", None)))
  ∧ handleUpdate tableName uuid_Parse schema_Validate d event st
    = (st, (errorResponse
              "validation failed: invalid UUID format for field laborLineId: "
              "ValidationError", None)).
Proof.
  intros Hk Hempty. split.
  - intros Htemp. unfold handleCreate, GetInputArgument.
    rewrite (GetArgumentAs_missing event "input" CreateLaborLineInput.zero Hk).
    unfold ValidateCreateInput, validateData, validateUUIDs, uuidFields, withOptional.
    cbn [CreateLaborLineInput.zero CreateLaborLineInput.AccountID CreateLaborLineInput.TaskID
         CreateLaborLineInput.PartID CreateLaborLineInput.Notes validateUUIDFields].
    rewrite lookup_insert_eq, Htemp, lookup_insert_ne by done.
    by rewrite lookup_insert_eq, Hempty.
  - unfold handleUpdate, GetInputArgument.
    rewrite (GetArgumentAs_missing event "input" UpdateLaborLineInput.zero Hk).
    unfold ValidateUpdateInput, validateData, validateUUIDs, uuidFields, withOptional.
    cbn [UpdateLaborLineInput.zero UpdateLaborLineInput.LaborLineID
         UpdateLaborLineInput.AccountID UpdateLaborLineInput.TaskID
         UpdateLaborLineInput.PartID UpdateLaborLineInput.Notes validateUUIDFields].
    by rewrite lookup_insert_eq, Hempty.
Qed.

Lemma validateData_None_slots (data : gmap string any) (slot : string * string) :
  validateData uuid_Parse schema_Validate data = None →
  slot ∈ identifierSlots data → uuid_Parse slot.2 = true.
Proof.
  unfold validateData. rewrite validateUUIDs_first. unfold firstFormatViolation.
  destruct (find _ _) as [[name value]|] eqn:Hfind; [discriminate|]. intros _ Hin.
  apply list_elem_of_In in Hin. pose proof (find_none _ _ Hfind _ Hin) as Hp.
  by apply negb_false_iff in Hp.
Qed.

Lemma partSlot_elem (parts : list string) (part : string) :
  part ∈ parts → ∃ i, partSlot i part ∈ imap partSlot parts.
Proof.
  intros [i Hi]%list_elem_of_lookup. exists i. apply list_elem_of_lookup. exists i.
  by rewrite list_lookup_imap, Hi.
Qed.

(** X12. No ill-formed identifier gets past the validator, whatever the
    schema validator says: an update input that is accepted has a
    laborLineId, an accountId, a taskId and part identifiers that the
    parser accepts, a create input that is accepted has an accountId, a
    taskId and part identifiers that it accepts, and so has every record a
    create returns. *)
Theorem accepted_identifiers_parse :
  (∀ input,
     ValidateUpdateInput uuid_Parse schema_Validate input = None →
     uuid_Parse (UpdateLaborLineInput.LaborLineID input) = true
     ∧ uuid_Parse (UpdateLaborLineInput.AccountID input) = true
     ∧ uuid_Parse (UpdateLaborLineInput.TaskID input) = true
     ∧ Forall (λ part, uuid_Parse part = true)
              (default [] (UpdateLaborLineInput.PartID input)))
  ∧ (∀ tempID input,
       ValidateCreateInput uuid_Parse schema_Validate tempID input = None →
       uuid_Parse (CreateLaborLineInput.AccountID input) = true
       ∧ uuid_Parse (CreateLaborLineInput.TaskID input) = true
       ∧ Forall (λ part, uuid_Parse part = true)
                (default [] (CreateLaborLineInput.PartID input)))
  ∧ (∀ d event (st : T) ll,
       ll ∈ recordsOf (handleCreate tableName uuid_Parse schema_Validate d event st).2.1 →
       uuid_Parse (LaborLine.AccountID ll) = true
       ∧ uuid_Parse (LaborLine.TaskID ll) = true
       ∧ Forall (λ part, uuid_Parse part = true) (default [] (LaborLine.PartID ll))).
Proof.
  assert (Hcreate : ∀ tempID input,
            ValidateCreateInput uuid_Parse schema_Validate tempID input = None →
            uuid_Parse (CreateLaborLineInput.AccountID input) = true
            ∧ uuid_Parse (CreateLaborLineInput.TaskID input) = true
            ∧ Forall (λ part, uuid_Parse part = true)
                     (default [] (CreateLaborLineInput.PartID input))).
  { intros tempID input.
    destruct (ValidateCreateInput_order uuid_Parse tempID input) as (data & -> & Hslots).
    intros Hv. pose proof (validateData_None_slots data) as Hs. rewrite Hslots in Hs.
    split; [|split].
    - apply (Hs ("field accountId", _) Hv). apply elem_of_app. left. rewrite !elem_of_cons. auto 10.
    - apply (Hs ("field taskId", _) Hv). apply elem_of_app. left. rewrite !elem_of_cons. auto 10.
    - apply Forall_forall. intros part [i Hi]%partSlot_elem.
      apply (Hs (partSlot i part) Hv). apply elem_of_app. by right. }
  split; [|split; [exact Hcreate|]].
  - intros input.
    destruct (ValidateUpdateInput_order uuid_Parse input) as (data & -> & Hslots).
    intros Hv. pose proof (validateData_None_slots data) as Hs. rewrite Hslots in Hs.
    split; [|split; [|split]].
    + apply (Hs ("field laborLineId", _) Hv). apply elem_of_app. left. rewrite !elem_of_cons. auto 10.
    + apply (Hs ("field accountId", _) Hv). apply elem_of_app. left. rewrite !elem_of_cons. auto 10.
    + apply (Hs ("field taskId", _) Hv). apply elem_of_app. left. rewrite !elem_of_cons. auto 10.
    + apply Forall_forall. intros part [i Hi]%partSlot_elem.
      apply (Hs (partSlot i part) Hv). apply elem_of_app. by right.
  - intros d event st ll. unfold handleCreate.
    destruct (GetInputArgument event _) as [input|]; [|by intros ?%elem_of_nil].
    destruct (ValidateCreateInput _ _ _ _) eqn:Hv; [by intros ?%elem_of_nil|].
    destruct (CreateLaborLine _ _ _) as [st' []]; [|by intros ?%elem_of_nil].
    intros ->%list_elem_of_singleton. exact (Hcreate _ _ Hv).
Qed.

End acceptance_properties.

(** ** The further properties on the worked example *)

Lemma rejected_request_leaves_store_witness :
  Error_ (LambdaHandler canonicalUUID embeddedSchema "labor-lines" None
            (exampleDraws 1700000100) badCreateEvent exampleTable).2.1
    = Some {| Message := "validation failed: invalid UUID format for field accountId: invalid-uuid";
              Type_ := "ValidationError" |}
  ∧ ("ValidationError" ∈ rejectionTypes)
  ∧ (LambdaHandler canonicalUUID embeddedSchema "labor-lines" None
       (exampleDraws 1700000100) badCreateEvent exampleTable).1 = exampleTable.
Proof.
  assert (He : Error_ (LambdaHandler canonicalUUID embeddedSchema "labor-lines" None
                         (exampleDraws 1700000100) badCreateEvent exampleTable).2.1
               = Some {| Message := "validation failed: invalid UUID format for field accountId: invalid-uuid";
                         Type_ := "ValidationError" |}) by by_evaluation.
  assert (Ht : "ValidationError" ∈ rejectionTypes) by (by apply (bool_decide_unpack _)).
  split; [exact He|]. split; [exact Ht|].
  exact (rejected_request_leaves_store canonicalUUID embeddedSchema "labor-lines" None
           (exampleDraws 1700000100) badCreateEvent exampleTable _ He Ht).
Defined.

Lemma dispatch_reads_info_and_arguments_witness :
  info_FieldName (Info misplacedEvent) = info_FieldName (Info unnamedEvent)
  ∧ Arguments misplacedEvent = Arguments unnamedEvent
  ∧ exampleHandle (exampleDraws 1700000100) misplacedEvent ∅
    = exampleHandle (exampleDraws 1700000100) unnamedEvent ∅.
Proof.
  split; [reflexivity|]. split; [reflexivity|].
  exact (dispatch_reads_info_and_arguments canonicalUUID embeddedSchema "labor-lines"
           (exampleDraws 1700000100) misplacedEvent unnamedEvent ∅ eq_refl eq_refl).
Defined.

Lemma operation_writes_one_item_witness :
  is_Some (exampleTable !! exampleKey)
  ∧ is_Some ((exampleHandle (exampleDraws 1700000200) deleteEvent exampleTable).1 !! exampleKey)
  ∧ info_FieldName (Info deleteEvent) ≠ "createLaborLine"
  ∧ dom (exampleHandle (exampleDraws 1700000200) deleteEvent exampleTable).1 = dom exampleTable.
Proof.
  destruct (operation_writes_one_item "labor-lines" canonicalUUID embeddedSchema
              (exampleDraws 1700000200) deleteEvent exampleTable) as (Hkeep & _ & Hdom).
  assert (Hk : is_Some (exampleTable !! exampleKey)).
  { exists (itemOf exampleRecord). unfold exampleTable. apply lookup_singleton_eq. }
  assert (Hop : info_FieldName (Info deleteEvent) ≠ "createLaborLine") by discriminate.
  split; [exact Hk|]. split; [exact (Hkeep _ Hk)|]. split; [exact Hop|exact (Hdom Hop)].
Defined.

Lemma create_then_get_round_trip_witness :
  (handleCreate "labor-lines" canonicalUUID embeddedSchema (exampleDraws 1700000100)
     createEvent (∅ : Table)).2
    = (dataResponse (data_LaborLine (Some exampleRecord)), None)
  ∧ handleGet "labor-lines" getEvent
      (handleCreate "labor-lines" canonicalUUID embeddedSchema (exampleDraws 1700000100)
         createEvent (∅ : Table)).1
    = ((handleCreate "labor-lines" canonicalUUID embeddedSchema (exampleDraws 1700000100)
          createEvent (∅ : Table)).1,
       (dataResponse (data_LaborLine (Some exampleRecord)), None)).
Proof.
  assert (Hdec : GetInputArgument createEvent CreateLaborLineInput.zero = Ok exampleCreateInput)
    by by_evaluation.
  assert (Hval : ValidateCreateInput canonicalUUID embeddedSchema
                   (tempID (exampleDraws 1700000100)) exampleCreateInput = None)
    by by_evaluation.
  assert (Hget : GetInputArgument getEvent GetLaborLineInput.zero
                 = Ok (GetLaborLineInput.mk (CreateLaborLineInput.AccountID exampleCreateInput)
                         (CreateLaborLineInput.TaskID exampleCreateInput)
                         (newID (exampleDraws 1700000100)))) by by_evaluation.
  destruct (create_then_get_round_trip "labor-lines" canonicalUUID embeddedSchema ∅
              (exampleDraws 1700000100) createEvent getEvent exampleCreateInput Hdec Hval)
    as (H1 & H2); [discriminate|by_evaluation|exact Hget|].
  split; [exact H1|exact H2].
Defined.

Lemma update_replaces_record_witness :
  ∃ updated : LaborLine.t,
    (handleUpdate "labor-lines" canonicalUUID embeddedSchema (exampleDraws 1700000300)
       updateEvent exampleTable).2
      = (dataResponse (data_LaborLine (Some updated)), None)
    ∧ LaborLine.ContactID updated = exampleContact
    ∧ LaborLine.PartID updated = None
    ∧ LaborLine.Notes updated = Some ["n2"].
Proof.
  destruct (update_replaces_record "labor-lines" canonicalUUID embeddedSchema exampleTable
              (exampleDraws 1700000300) updateEvent exampleUpdateInput
              (itemOf exampleRecord) exampleRecord exampleTable_wf)
    as (updated & H1 & _ & H3 & H4 & H5 & _); try by_evaluation.
  exists updated. split; [exact H1|]. split; [exact H3|]. split; [exact H4|exact H5].
Defined.

Lemma operations_on_invisible_record_witness :
  handleGet "labor-lines" getEvent exampleDeletedTable
    = (exampleDeletedTable, (errorResponse "labor line not found" "NotFound", None))
  ∧ handleUpdate "labor-lines" canonicalUUID embeddedSchema (exampleDraws 1700000300)
      updateEvent exampleDeletedTable
    = (exampleDeletedTable, (errorResponse "failed to update labor line" "InternalError", None))
  ∧ handleDelete "labor-lines" (exampleDraws 1700000300) deleteEvent exampleDeletedTable
    = (exampleDeletedTable, (errorResponse "failed to delete labor line" "InternalError", None)).
Proof.
  destruct (operations_on_invisible_record "labor-lines" canonicalUUID embeddedSchema
              exampleDeletedTable exampleAccount exampleTask exampleID exampleDeletedTable_wf)
    as (Hget & _ & Hupd & _ & Hdel).
  - discriminate.
  - right. exists (itemOf exampleTombstone), exampleTombstone.
    split; [by_evaluation|]. split; [by_evaluation|discriminate].
  - split; [apply Hget; by_evaluation|]. split.
    + apply (Hupd (exampleDraws 1700000300) updateEvent exampleUpdateInput);
        first [by_evaluation | reflexivity].
    + apply Hdel. by_evaluation.
Defined.

Lemma delete_is_soft_witness :
  ∃ (item' : Item) (tombstone : LaborLine.t),
    handleDelete "labor-lines" (exampleDraws 1700000200) deleteEvent exampleTable
      = (<[exampleKey := item']> exampleTable,
         (dataResponse (data_map (<["success" := any_bool true]>
            (<["message" := any_string "labor line deleted successfully"]> ∅))), None))
    ∧ UnmarshalMap item' = Ok tombstone
    ∧ LaborLine.DeletedAt tombstone = Some 1700000200
    ∧ LaborLine.CreatedAt tombstone = 1700000100.
Proof.
  destruct (delete_is_soft "labor-lines" exampleTable (exampleDraws 1700000200) deleteEvent
              exampleDeleteInput (itemOf exampleRecord) exampleRecord exampleTable_wf)
    as (item' & tombstone & H1 & H2 & _ & H4 & _ & H6 & _); try by_evaluation.
  exists item', tombstone. split; [exact H1|]. split; [exact H2|]. split; [exact H4|exact H6].
Defined.

Lemma list_returns_live_records_of_account_witness :
  ListLaborLines "labor-lines" exampleListInput exampleTable = (exampleTable, Ok [exampleRecord])
  ∧ exampleRecord ∈ [exampleRecord]
  ∧ ∃ k item,
      exampleTable !! k = Some item ∧ UnmarshalMap item = Ok exampleRecord
      ∧ k.1 = exampleAccount.
Proof.
  assert (Hl : ListLaborLines "labor-lines" exampleListInput exampleTable
               = (exampleTable, Ok [exampleRecord])) by by_evaluation.
  destruct (list_returns_live_records_of_account "labor-lines" exampleTable exampleTable
              exampleListInput [exampleRecord] Hl) as (_ & Hchar & _).
  assert (Hin : exampleRecord ∈ [exampleRecord]) by apply list_elem_of_here.
  split; [exact Hl|]. split; [exact Hin|].
  destruct (proj1 (Hchar exampleRecord) Hin) as (k & item & Hk & Hu & _ & Hpk & _).
  exists k, item. split; [exact Hk|]. split; [exact Hu|exact Hpk].
Defined.

Lemma list_fails_on_undecodable_item_witness :
  UnmarshalMap exampleCorruptItem = Err UnmarshalTypeError
  ∧ handleList "labor-lines" listEvent exampleCorruptTable
    = (exampleCorruptTable, (errorResponse "failed to list labor lines" "InternalError", None)).
Proof.
  assert (Hu : UnmarshalMap exampleCorruptItem = Err UnmarshalTypeError) by by_evaluation.
  split; [exact Hu|].
  apply (proj2 (list_fails_on_undecodable_item "labor-lines") exampleCorruptTable listEvent
           exampleListInput (exampleAccount, "imported") exampleCorruptItem UnmarshalTypeError);
    first [exact Hu | discriminate | reflexivity | by_evaluation].
Defined.

Lemma mutation_without_input_is_rejected_witness :
  Arguments bareCreateEvent !! "input" = None
  ∧ canonicalUUID "" = false
  ∧ handleCreate "labor-lines" canonicalUUID embeddedSchema (exampleDraws 1700000100)
      bareCreateEvent exampleTable
    = (exampleTable,
       (errorResponse "validation failed: invalid UUID format for field accountId: "
          "ValidationError", None)).
Proof.
  assert (Hk : Arguments bareCreateEvent !! "input" = None) by by_evaluation.
  assert (He : canonicalUUID "" = false) by reflexivity.
  split; [exact Hk|]. split; [exact He|].
  apply (proj1 (mutation_without_input_is_rejected "labor-lines" canonicalUUID embeddedSchema
                  (exampleDraws 1700000100) bareCreateEvent exampleTable Hk He)).
  by_evaluation.
Defined.

Lemma accepted_identifiers_parse_witness :
  ValidateUpdateInput canonicalUUID embeddedSchema exampleUpdateInput = None
  ∧ canonicalUUID exampleID = true
  ∧ canonicalUUID exampleAccount = true
  ∧ canonicalUUID exampleTask = true.
Proof.
  assert (Hv : ValidateUpdateInput canonicalUUID embeddedSchema exampleUpdateInput = None)
    by by_evaluation.
  destruct (proj1 (accepted_identifiers_parse (T:=Table) "labor-lines" canonicalUUID
                     embeddedSchema) exampleUpdateInput Hv) as (H1 & H2 & H3 & _).
  split; [exact Hv|]. split; [exact H1|]. split; [exact H2|exact H3].
Defined.
